(** * go-mysql: read/write splitting client and result materialisation

    A shallow embedding of package [mysql] (client.go, database.go) and
    the properties of its [Client] routing and [Result] materialisation.

    Conventions of the embedding:
    - Go's [int32] is a [Z] with the two's-complement wrap-around written
      out ([wrap_int32]); [%] is truncated remainder ([Z.rem]).
    - A run-time panic is an explicit outcome ([Panic]) of type [exec].
    - [map[string]string] is a [gmap string string]; a nil map or a nil
      slice is [None].
    - [database/sql] and the MySQL driver are external collaborators: the
      cursor [sql.Rows] is a small state machine that records the calls
      it receives, and the connection pool is an oracle [Driver] whose
      calls are appended to a trace. *)

From Stdlib Require Import ZArith List String Lia Bool Permutation.
From stdpp Require Import base gmap strings list fin_maps.
Import ListNotations.

Local Open Scope Z_scope.

(* ================================================================== *)
(** ** Go run-time values *)
(* ================================================================== *)

Module Go.

Definition MaxInt32 : Z := 2147483647.
Definition MinInt32 : Z := -2147483648.

(** Conversion of an integer to [int32]: keep the low 32 bits, read
    as two's complement. *)
Definition wrap_int32 (z : Z) : Z := (z + 2 ^ 31) mod 2 ^ 32 - 2 ^ 31.

Definition is_int32 (z : Z) : Prop := MinInt32 <= z <= MaxInt32.

Inductive panic : Type :=
| IndexOutOfRange (i len : Z)
| DivideByZero
| NilDereference.

(** Outcome of a call that may panic. *)
Inductive exec (A : Type) : Type :=
| Ret (a : A)
| Panic (p : panic).
Arguments Ret {A} a.
Arguments Panic {A} p.

(** [atomic.AddInt32(&x, delta)]: the new value, wrapped. *)
Definition AddInt32 (x delta : Z) : Z := wrap_int32 (x + delta).

(** [x % y] on [int32]: truncated remainder, panics on a zero divisor. *)
Definition rem_int32 (x y : Z) : exec Z :=
  if y =? 0 then Panic DivideByZero else Ret (Z.rem x y).

(** [s[i]] on a slice: panics unless [0 <= i < len(s)]. *)
Definition index {A : Type} (s : list A) (i : Z) : exec A :=
  if (i <? 0) || (Z.of_nat (length s) <=? i)
  then Panic (IndexOutOfRange i (Z.of_nat (length s)))
  else match s !! Z.to_nat i with
       | Some a => Ret a
       | None => Panic (IndexOutOfRange i (Z.of_nat (length s)))
       end.

(** A [map[string]string] value: [None] is the nil map. *)
Definition gomap : Type := option (gmap string string).

(** [len(m)] and [m[k]] read a nil map as an empty one. *)
Definition map_len (m : gomap) : nat :=
  match m with None => 0%nat | Some g => size g end.
Definition map_get (m : gomap) (k : string) : option string :=
  match m with None => None | Some g => g !! k end.

(** A slice value that may be nil. *)
Definition slice (A : Type) : Type := option (list A).
Definition slice_len {A : Type} (s : slice A) : nat :=
  match s with None => 0%nat | Some l => length l end.
(** [append(s, x)] *)
Definition append {A : Type} (s : slice A) (x : A) : slice A :=
  match s with None => Some [x] | Some l => Some (l ++ [x]) end.
Definition elems {A : Type} (s : slice A) : list A :=
  match s with None => [] | Some l => l end.

End Go.
Export Go.

(* ================================================================== *)
(** ** Errors of the package and of its collaborators *)
(* ================================================================== *)

Inductive error : Type :=
| ErrorClientInvalidReplica          (* client.go: "invalid replica" *)
| ErrorNotImplemented                (* database.go: "not implemented" *)
| ErrorResultNoColumnsFound          (* database.go: "no columns found" *)
| ErrRowsClosed                      (* database/sql: "Rows are closed" *)
| ErrScanWithoutNext                 (* database/sql *)
| ErrScanArity (want got : nat)      (* database/sql *)
| DriverError (msg : string).        (* anything the driver reports *)

(* ================================================================== *)
(** ** The collaborator [github.com/go-sql-driver/mysql] *)
(* ================================================================== *)

Module driver.

(** The fields of [driver.Config] the package sets or reads;
    durations are in nanoseconds. *)
Record Config : Type := mkConfig {
  Net : string;
  Addr : string;
  DBName : string;
  User : string;
  Passwd : string;
  Timeout : Z;
  ReadTimeout : Z;
  WriteTimeout : Z
}.

End driver.

(* ================================================================== *)
(** ** The collaborator [database/sql] *)
(* ================================================================== *)

Module sql.

(** [sql.RawBytes]: a byte slice, nil for SQL NULL. *)
Definition RawBytes : Type := option (list Byte.byte).

(** One row as the driver delivers it; [scan_err] is the failure, if
    any, that [Scan] meets on it. *)
Record DriverRow : Type := mkDriverRow {
  cells : list RawBytes;
  scan_err : option error
}.

Inductive RowsCall : Type := CColumns | CNext | CScan | CClose.

(** The cursor [*sql.Rows]. [rs_calls] records the methods called on
    it, oldest first. *)
Record Rows : Type := mkRows {
  rs_columns : list string;
  rs_pending : list DriverRow;
  rs_lastcols : option DriverRow;
  rs_closed : bool;
  rs_calls : list RowsCall
}.

Definition called (c : RowsCall) (rs : Rows) : Rows :=
  mkRows (rs_columns rs) (rs_pending rs) (rs_lastcols rs) (rs_closed rs)
         (rs_calls rs ++ [c]).

(** [rs.Columns()] *)
Definition Columns (rs : Rows) : (list string * option error) * Rows :=
  (if rs_closed rs then ([], Some ErrRowsClosed)
   else (rs_columns rs, None),
   called CColumns rs).

(** [rs.Next()]: fetches the next row; a cursor that has no further
    row closes itself. *)
Definition Next (rs : Rows) : bool * Rows :=
  let rs := called CNext rs in
  if rs_closed rs then (false, rs)
  else match rs_pending rs with
       | [] => (false, mkRows (rs_columns rs) [] None true (rs_calls rs))
       | r :: rest =>
           (true, mkRows (rs_columns rs) rest (Some r) false (rs_calls rs))
       end.

(** [rs.Scan(dest...)] with [ndest] destinations of type
    [*sql.RawBytes]: the values stored, or the error. *)
Definition Scan (rs : Rows) (ndest : nat) : (list RawBytes + error) * Rows :=
  (if rs_closed rs then inr ErrRowsClosed
   else match rs_lastcols rs with
        | None => inr ErrScanWithoutNext
        | Some r =>
            match scan_err r with
            | Some e => inr e
            | None =>
                if Nat.eqb (length (cells r)) ndest then inl (cells r)
                else inr (ErrScanArity (length (cells r)) ndest)
            end
        end,
   called CScan rs).

(** [rs.Close()] *)
Definition Close (rs : Rows) : Rows :=
  let rs := called CClose rs in
  mkRows (rs_columns rs) (rs_pending rs) (rs_lastcols rs) true (rs_calls rs).

(** [sql.Result]: the outcome of a mutation. *)
Record Result : Type := mkSqlResult {
  res_LastInsertId : Z * option error;
  res_RowsAffected : Z * option error
}.

(** Handles of the library: a pool, a transaction, a statement. *)
Definition DB : Type := nat.
Definition Tx : Type := nat.
Definition Stmt : Type := nat.

(** [context.Context] *)
Inductive Ctx : Type :=
| Background
| WithTimeout (parent : Ctx) (d : Z)
| Caller (id : nat).

(** Query arguments ([interface{}]). *)
Inductive Value : Type :=
| VNil
| VInt (z : Z)
| VString (s : string).

(** The calls the package makes on the library. *)
Inductive Call : Type :=
| Open (driverName dsn : string)
| SetConnMaxLifetime (d : DB) (t : Z)
| SetMaxOpenConns (d : DB) (n : Z)
| SetMaxIdleConns (d : DB) (n : Z)
| PingContext (d : DB) (ctx : Ctx)
| DBClose (d : DB)
| DBQueryContext (d : DB) (ctx : Ctx) (query : string) (args : list Value)
| DBExecContext (d : DB) (ctx : Ctx) (query : string) (args : list Value)
| DBPrepareContext (d : DB) (ctx : Ctx) (query : string)
| DBBeginTx (d : DB) (ctx : Ctx)
| TxQueryContext (t : Tx) (ctx : Ctx) (query : string) (args : list Value)
| TxExecContext (t : Tx) (ctx : Ctx) (query : string) (args : list Value)
| StmtQueryContext (s : Stmt) (ctx : Ctx) (args : list Value)
| StmtExecContext (s : Stmt) (ctx : Ctx) (args : list Value).

(** The trace of calls made so far, oldest first. *)
Definition World : Type := list Call.

(** What the library answers to a call, given the calls before it. *)
Record Driver : Type := mkDriver {
  FormatDSN : driver.Config -> string;
  on_Open : World -> string -> string -> DB + error;
  on_Ping : World -> DB -> Ctx -> option error;
  on_Query : World -> Call -> Rows + error;
  on_Exec : World -> Call -> Result + error;
  on_Prepare : World -> DB -> Ctx -> string -> Stmt + error;
  on_BeginTx : World -> DB -> Ctx -> Tx + error
}.

End sql.

(* ================================================================== *)
(** ** Package [mysql]: database.go *)
(* ================================================================== *)

Import sql.

Definition second : Z := 1000000000.

Definition DefaultMaxOpenConns : Z := 50.
Definition DefaultMaxIdleConns : Z := 10.
Definition DefaultMaxLifetime : Z := 30 * second.
Definition DefaultDialTimeout : Z := 2 * second.
Definition DefaultReadTimeout : Z := 0 * second.
Definition DefaultWriteTimeout : Z := 0 * second.

Definition defaultCtx : Ctx := Background.

(** [Config]: the driver's configuration and the extension fields. *)
Record Config : Type := mkConfig {
  Config_driver : driver.Config;
  MaxOpenConns : Z;
  MaxIdleConns : Z;
  MaxLifetime : Z;
  PingTest : bool
}.

Definition NewDefaultConfig (addr dbname user passwd : string) (ping : bool)
  : Config :=
  mkConfig
    (driver.mkConfig "tcp" addr dbname user passwd
       DefaultDialTimeout DefaultReadTimeout DefaultWriteTimeout)
    DefaultMaxOpenConns DefaultMaxIdleConns DefaultMaxLifetime
    false.

(** [fmt.Sprintf("%s://%s/%s", c.Net, c.Addr, c.DBName)] *)
Definition UniqId (c : Config) : string :=
  (driver.Net (Config_driver c) ++ "://" ++ driver.Addr (Config_driver c)
     ++ "/" ++ driver.DBName (Config_driver c))%string.

Record Database : Type := mkDatabase {
  db : DB;
  cf : Config
}.

(** [Result]: [rows] and [result] are nil-able; the cursor behind
    [rows] is carried by value and every method that moves it returns
    the [Result] as the caller sees it afterwards. *)
Record Result : Type := mkResult {
  hit : string;
  rows : option sql.Rows;
  result : option sql.Result
}.

Definition buildResult (d : Database) (result : option sql.Result) : Result :=
  mkResult (UniqId (cf d)) None result.

Definition buildResultRows (d : Database) (rows : option sql.Rows) : Result :=
  mkResult (UniqId (cf d)) rows None.

Record Transaction : Type := mkTransaction {
  tx_db : Database;
  tx : Tx
}.

Record Statement : Type := mkStatement {
  st_db : Database;
  stmt : Stmt
}.

(** A Go pair [(value, err)] from a library answer. *)
Definition go_pair {A : Type} (r : A + error) : option A * option error :=
  match r with
  | inl a => (Some a, None)
  | inr e => (None, Some e)
  end.

Section Package.

Variable drv : Driver.

Definition NewDatabaseWithConfig (conf : Config) (w : World)
  : (Database + error) * World :=
  let dsn := FormatDSN drv (Config_driver conf) in
  let w1 := w ++ [Open "mysql" dsn] in
  match on_Open drv w "mysql" dsn with
  | inr err => (inr err, w1)
  | inl db =>
      let w2 := w1 ++ [SetConnMaxLifetime db (MaxLifetime conf);
                       SetMaxOpenConns db (MaxOpenConns conf);
                       SetMaxIdleConns db (MaxIdleConns conf)] in
      if PingTest conf then
        let ctx := WithTimeout defaultCtx (driver.Timeout (Config_driver conf)) in
        let w3 := w2 ++ [PingContext db ctx] in
        match on_Ping drv w2 db ctx with
        | Some err => (inr err, w3 ++ [DBClose db])
        | None => (inl (mkDatabase db conf), w3)
        end
      else (inl (mkDatabase db conf), w2)
  end.

Definition Database_QueryContext (d : Database) (ctx : Ctx) (query : string)
    (args : list Value) (w : World) : (Result * option error) * World :=
  let c := DBQueryContext (db d) ctx query args in
  let '(rows, err) := go_pair (on_Query drv w c) in
  ((buildResultRows d rows, err), w ++ [c]).

Definition Database_Query (d : Database) (query : string)
    (args : list Value) (w : World) : (Result * option error) * World :=
  Database_QueryContext d defaultCtx query args w.

Definition Database_ExecContext (d : Database) (ctx : Ctx) (query : string)
    (args : list Value) (w : World) : (Result * option error) * World :=
  let c := DBExecContext (db d) ctx query args in
  let '(result, err) := go_pair (on_Exec drv w c) in
  ((buildResult d result, err), w ++ [c]).

Definition Database_Exec (d : Database) (query : string)
    (args : list Value) (w : World) : (Result * option error) * World :=
  Database_ExecContext d defaultCtx query args w.

Definition Database_PrepareContext (d : Database) (ctx : Ctx)
    (query : string) (w : World) : (Statement + error) * World :=
  (match on_Prepare drv w (db d) ctx query with
   | inr err => inr err
   | inl stmt => inl (mkStatement d stmt)
   end,
   w ++ [DBPrepareContext (db d) ctx query]).

Definition Database_Prepare (d : Database) (query : string) (w : World)
  : (Statement + error) * World :=
  Database_PrepareContext d defaultCtx query w.

Definition Database_BeginTransactionContext (d : Database) (ctx : Ctx)
    (w : World) : (Transaction + error) * World :=
  (match on_BeginTx drv w (db d) ctx with
   | inr err => inr err
   | inl tx => inl (mkTransaction d tx)
   end,
   w ++ [DBBeginTx (db d) ctx]).

Definition Database_BeginTransaction (d : Database) (w : World)
  : (Transaction + error) * World :=
  Database_BeginTransactionContext d defaultCtx w.

Definition Transaction_QueryContext (t : Transaction) (ctx : Ctx)
    (query : string) (args : list Value) (w : World)
  : (Result * option error) * World :=
  let c := TxQueryContext (tx t) ctx query args in
  let '(rows, err) := go_pair (on_Query drv w c) in
  ((buildResultRows (tx_db t) rows, err), w ++ [c]).

Definition Transaction_Query (t : Transaction) (query : string)
    (args : list Value) (w : World) : (Result * option error) * World :=
  Transaction_QueryContext t defaultCtx query args w.

Definition Transaction_ExecContext (t : Transaction) (ctx : Ctx)
    (query : string) (args : list Value) (w : World)
  : (Result * option error) * World :=
  let c := TxExecContext (tx t) ctx query args in
  let '(result, err) := go_pair (on_Exec drv w c) in
  ((buildResult (tx_db t) result, err), w ++ [c]).

Definition Statement_QueryContext (s : Statement) (ctx : Ctx)
    (args : list Value) (w : World) : (Result * option error) * World :=
  let c := StmtQueryContext (stmt s) ctx args in
  let '(rows, err) := go_pair (on_Query drv w c) in
  ((buildResultRows (st_db s) rows, err), w ++ [c]).

Definition Statement_Query (s : Statement) (args : list Value) (w : World)
  : (Result * option error) * World :=
  Statement_QueryContext s defaultCtx args w.

Definition Statement_ExecContext (s : Statement) (ctx : Ctx)
    (args : list Value) (w : World) : (Result * option error) * World :=
  let c := StmtExecContext (stmt s) ctx args in
  let '(result, err) := go_pair (on_Exec drv w c) in
  ((buildResult (st_db s) result, err), w ++ [c]).

End Package.

(** *** [Result] *)

Definition Result_Hit (r : Result) : string := hit r.

(** [string(value)] on a non-nil [sql.RawBytes], [""] on a nil one: the
    two branches of the column loop of [Row] and [Rows]. *)
Definition decode (value : RawBytes) : string :=
  match value with
  | None => ""%string
  | Some b => string_of_list_byte b
  end.

(** [for i, value := range values { row[columns[i]] = ... }], from
    index [i] on. [values] has one entry per column, so [columns[i]]
    is always in range. *)
Fixpoint fill_row (columns : list string) (i : nat) (values : list RawBytes)
    (row : gmap string string) : gmap string string :=
  match values with
  | [] => row
  | value :: rest =>
      fill_row columns (S i) rest
        (<[nth i columns ""%string := decode value]> row)
  end.

(** The [Result] whose cursor has moved to [rs]. *)
Definition moved (r : Result) (rs : sql.Rows) : Result :=
  mkResult (hit r) (Some rs) (result r).

(** [Row]: the first row of the set. *)
Definition Result_Row (r : Result) : (gomap * option error) * Result :=
  match rows r with
  | None => ((None, None), r)
  | Some rs =>
      let '((columns, err), rs) := Columns rs in
      match err with
      | Some e => ((None, Some e), moved r rs)
      | None =>
          if Nat.eqb (length columns) 0
          then ((None, Some ErrorResultNoColumnsFound), moved r rs)
          else
            let values : list RawBytes := repeat None (length columns) in
            let '(more, rs) := Next rs in
            if more then
              let '(scanned, rs) := Scan rs (length values) in
              match scanned with
              | inr e => ((None, Some e), moved r rs)
              | inl values =>
                  let row := fill_row columns 0 values ∅ in
                  let rs := Close rs in
                  ((Some row, None), moved r rs)
              end
            else ((None, None), moved r rs)
      end
  end.

(** The loop [for r.rows.Next() { ... }] of [Rows], at most [fuel]
    iterations; [None] when [fuel] does not suffice. *)
Fixpoint Rows_loop (fuel : nat) (columns : list string) (nvalues : nat)
    (rs : sql.Rows) (rows : slice (gmap string string))
  : option ((slice (gmap string string) * option error) * sql.Rows) :=
  match fuel with
  | O => None
  | S fuel =>
      let '(more, rs) := Next rs in
      if more then
        let '(scanned, rs) := Scan rs nvalues in
        match scanned with
        | inr e => Some ((None, Some e), rs)
        | inl values =>
            let row := fill_row columns 0 values ∅ in
            Rows_loop fuel columns nvalues rs (append rows row)
        end
      else Some ((rows, None), rs)
  end.

(** [Rows]: all rows of the set. The loop runs once per row still to be
    fetched and once more for the [Next] that ends it. *)
Definition Result_Rows (r : Result)
  : option ((slice (gmap string string) * option error) * Result) :=
  match rows r with
  | None => Some ((None, None), r)
  | Some rs =>
      let '((columns, err), rs) := Columns rs in
      match err with
      | Some e => Some ((None, Some e), moved r rs)
      | None =>
          if Nat.eqb (length columns) 0
          then Some ((None, Some ErrorResultNoColumnsFound), moved r rs)
          else
            let values : list RawBytes := repeat None (length columns) in
            match Rows_loop (S (length (rs_pending rs))) columns
                    (length values) rs None with
            | Some (out, rs) => Some (out, moved r rs)
            | None => None
            end
      end
  end.

(** A row the cursor can deliver to [n] destinations. *)
Definition scans (n : nat) (row : DriverRow) : Prop :=
  scan_err row = None /\ length (cells row) = n.

(** The mapping the column loop builds from a row. *)
Definition row_map (columns : list string) (row : DriverRow)
  : gmap string string :=
  fill_row columns 0 (cells row) ∅.

(** [m] holds, under the name of every column that no later column
    repeats, the value of that column in [row]: the empty string for a
    NULL and the bytes as a string otherwise. *)
Definition materialises (columns : list string) (row : DriverRow)
    (m : gmap string string) : Prop :=
  forall (i : nat) (name : string) (value : RawBytes),
    columns !! i = Some name ->
    cells row !! i = Some value ->
    (forall i' : nat, (i < i')%nat -> columns !! i' <> Some name) ->
    m !! name = Some (match value with
                      | None => ""%string
                      | Some b => string_of_list_byte b
                      end).

Definition Result_Unmarshal (r : Result) : option error :=
  Some ErrorNotImplemented.

(** [r.result.RowsAffected()]: a method call on a nil interface value
    panics. *)
Definition Result_RowsAffected (r : Result) : exec (Z * option error) :=
  match result r with
  | None => Panic NilDereference
  | Some res => Ret (res_RowsAffected res)
  end.

Definition Result_LastInsertId (r : Result) : exec (Z * option error) :=
  match result r with
  | None => Panic NilDereference
  | Some res => Ret (res_LastInsertId res)
  end.

(* ================================================================== *)
(** ** Package [mysql]: client.go *)
(* ================================================================== *)

(** [Client]. The fields are unexported and [NewClient] is the only
    constructor, so [primary] is never nil; a read selection is one
    atomic step (the read lock is held across it and the counter is
    bumped by one atomic add). *)
Record Client : Type := mkClient {
  primary : Database;
  replicas : list Database;
  cursor : Z
}.

Definition set_cursor (c : Client) (v : Z) : Client :=
  mkClient (primary c) (replicas c) v.

(** Get a database for write. *)
Definition getp (c : Client) : Database := primary c.

(** Get a database for read. *)
Definition getr (c : Client) : exec Database * Client :=
  let n := Z.of_nat (length (replicas c)) in
  if n <=? 0 then (Ret (getp c), c)
  else if n =? 1 then (index (replicas c) 0, c)
  else
    let v := AddInt32 (cursor c) 1 in
    let c := set_cursor c v in
    match rem_int32 v (wrap_int32 n) with
    | Panic p => (Panic p, c)
    | Ret i => (index (replicas c) i, c)
    end.

Definition GetPrimary (c : Client) : Database := getp c.
Definition GetReplica (c : Client) : exec Database * Client := getr c.

Section ClientCalls.

Variable drv : Driver.

Definition NewClient (primary : Config) (w : World)
  : (Client + error) * World :=
  match NewDatabaseWithConfig drv primary w with
  | (inr err, w) => (inr err, w)
  | (inl d, w) => (inl (mkClient d [] 0), w)
  end.

(** [SetReplica]; [None] is the nil configuration. *)
Definition SetReplica (c : Client) (replica : option Config) (w : World)
  : option error * Client * World :=
  match replica with
  | None => (Some ErrorClientInvalidReplica, c, w)
  | Some replica =>
      match NewDatabaseWithConfig drv replica w with
      | (inr err, w) => (Some err, c, w)
      | (inl d, w) =>
          (None, mkClient (primary c) (replicas c ++ [d]) (cursor c), w)
      end
  end.

Definition Client_QueryContext (c : Client) (ctx : Ctx) (query : string)
    (args : list Value) (w : World)
  : exec (Result * option error) * Client * World :=
  match getr c with
  | (Panic p, c) => (Panic p, c, w)
  | (Ret d, c) =>
      let '(out, w) := Database_QueryContext drv d ctx query args w in
      (Ret out, c, w)
  end.

Definition Client_Query (c : Client) (query : string) (args : list Value)
    (w : World) : exec (Result * option error) * Client * World :=
  match getr c with
  | (Panic p, c) => (Panic p, c, w)
  | (Ret d, c) =>
      let '(out, w) := Database_Query drv d query args w in
      (Ret out, c, w)
  end.

Definition Client_ExecContext (c : Client) (ctx : Ctx) (query : string)
    (args : list Value) (w : World) : (Result * option error) * World :=
  Database_ExecContext drv (getp c) ctx query args w.

Definition Client_Exec (c : Client) (query : string) (args : list Value)
    (w : World) : (Result * option error) * World :=
  Database_Exec drv (getp c) query args w.

Definition Client_BeginTransaction (c : Client) (w : World)
  : (Transaction + error) * World :=
  Database_BeginTransaction drv (getp c) w.

Definition Client_BeginTransactionContext (c : Client) (ctx : Ctx)
    (w : World) : (Transaction + error) * World :=
  Database_BeginTransactionContext drv (getp c) ctx w.

End ClientCalls.

(** [k] read selections in a row: what each returned, in call order,
    and the client afterwards. *)
Fixpoint getr_times (k : nat) (c : Client) : list (exec Database) * Client :=
  match k with
  | O => ([], c)
  | S k =>
      let '(d, c) := getr c in
      let '(ds, c) := getr_times k c in
      (d :: ds, c)
  end.

(* ================================================================== *)
(** ** Package [mysql]: options, [NewDatabase], teardown *)
(* ================================================================== *)

(** [DatabaseOption]: a function that updates the configuration it is
    given; the update is the function's result. *)
Definition DatabaseOption : Type := Config -> Config.

(** The configuration with its driver part replaced. *)
Definition with_driver (conf : Config) (d : driver.Config) : Config :=
  mkConfig d (MaxOpenConns conf) (MaxIdleConns conf) (MaxLifetime conf)
    (PingTest conf).

Definition WithMaxConnLifetime (lifetime : Z) : DatabaseOption :=
  fun conf =>
    mkConfig (Config_driver conf) (MaxOpenConns conf) (MaxIdleConns conf)
      lifetime (PingTest conf).

Definition WithMaxOpenConns (limit : Z) : DatabaseOption :=
  fun conf =>
    mkConfig (Config_driver conf) limit (MaxIdleConns conf)
      (MaxLifetime conf) (PingTest conf).

Definition WithMaxIdleConns (limit : Z) : DatabaseOption :=
  fun conf =>
    mkConfig (Config_driver conf) (MaxOpenConns conf) limit
      (MaxLifetime conf) (PingTest conf).

Definition WithDialTimeout (timeout : Z) : DatabaseOption :=
  fun conf =>
    let d := Config_driver conf in
    with_driver conf
      (driver.mkConfig (driver.Net d) (driver.Addr d) (driver.DBName d)
         (driver.User d) (driver.Passwd d)
         timeout (driver.ReadTimeout d) (driver.WriteTimeout d)).

Definition WithReadTimeout (timeout : Z) : DatabaseOption :=
  fun conf =>
    let d := Config_driver conf in
    with_driver conf
      (driver.mkConfig (driver.Net d) (driver.Addr d) (driver.DBName d)
         (driver.User d) (driver.Passwd d)
         (driver.Timeout d) timeout (driver.WriteTimeout d)).

Definition WithWriteTimeout (timeout : Z) : DatabaseOption :=
  fun conf =>
    let d := Config_driver conf in
    with_driver conf
      (driver.mkConfig (driver.Net d) (driver.Addr d) (driver.DBName d)
         (driver.User d) (driver.Passwd d)
         (driver.Timeout d) (driver.ReadTimeout d) timeout).

Definition WithPingTest (b : bool) : DatabaseOption :=
  fun conf =>
    mkConfig (Config_driver conf) (MaxOpenConns conf) (MaxIdleConns conf)
      (MaxLifetime conf) b.

(** The options the package provides. *)
Inductive Provided : DatabaseOption -> Prop :=
| provided_MaxConnLifetime (t : Z) : Provided (WithMaxConnLifetime t)
| provided_MaxOpenConns (n : Z) : Provided (WithMaxOpenConns n)
| provided_MaxIdleConns (n : Z) : Provided (WithMaxIdleConns n)
| provided_DialTimeout (t : Z) : Provided (WithDialTimeout t)
| provided_ReadTimeout (t : Z) : Provided (WithReadTimeout t)
| provided_WriteTimeout (t : Z) : Provided (WithWriteTimeout t)
| provided_PingTest (b : bool) : Provided (WithPingTest b).

(** A call of one of the package's option constructors, as a caller
    writes it in the argument list of [NewDatabase]. *)
Inductive OptionCall : Type :=
| MaxConnLifetimeOf (t : Z)
| MaxOpenConnsOf (n : Z)
| MaxIdleConnsOf (n : Z)
| DialTimeoutOf (t : Z)
| ReadTimeoutOf (t : Z)
| WriteTimeoutOf (t : Z)
| PingTestOf (b : bool).

(** The option the call evaluates to. *)
Definition option_of (o : OptionCall) : DatabaseOption :=
  match o with
  | MaxConnLifetimeOf t => WithMaxConnLifetime t
  | MaxOpenConnsOf n => WithMaxOpenConns n
  | MaxIdleConnsOf n => WithMaxIdleConns n
  | DialTimeoutOf t => WithDialTimeout t
  | ReadTimeoutOf t => WithReadTimeout t
  | WriteTimeoutOf t => WithWriteTimeout t
  | PingTestOf b => WithPingTest b
  end.

(** The value of the last call that [pick] selects, [d] when there is
    none. *)
Definition last_written {A : Type} (pick : OptionCall -> option A)
    (calls : list OptionCall) (d : A) : A :=
  default d (last (omap pick calls)).

Definition lifetime_of (o : OptionCall) : option Z :=
  match o with MaxConnLifetimeOf t => Some t | _ => None end.
Definition open_conns_of (o : OptionCall) : option Z :=
  match o with MaxOpenConnsOf n => Some n | _ => None end.
Definition idle_conns_of (o : OptionCall) : option Z :=
  match o with MaxIdleConnsOf n => Some n | _ => None end.
Definition dial_timeout_of (o : OptionCall) : option Z :=
  match o with DialTimeoutOf t => Some t | _ => None end.
Definition read_timeout_of (o : OptionCall) : option Z :=
  match o with ReadTimeoutOf t => Some t | _ => None end.
Definition write_timeout_of (o : OptionCall) : option Z :=
  match o with WriteTimeoutOf t => Some t | _ => None end.
Definition ping_test_of (o : OptionCall) : option bool :=
  match o with PingTestOf b => Some b | _ => None end.

(** [for _, fun := range opts { fun(conf) }] *)
Definition apply_options (opts : list DatabaseOption) (conf : Config)
  : Config :=
  fold_left (fun conf fun_ => fun_ conf) opts conf.

Definition NewDatabase (drv : Driver) (addr dbname user passwd : string)
    (opts : list DatabaseOption) (w : World) : (Database + error) * World :=
  let conf := NewDefaultConfig addr dbname user passwd false in
  NewDatabaseWithConfig drv (apply_options opts conf) w.

(** [d.db.PingContext(ctx)] *)
Definition Database_Ping (drv : Driver) (d : Database) (ctx : Ctx) (w : World)
  : option error * World :=
  (on_Ping drv w (db d) ctx, w ++ [PingContext (db d) ctx]).

Section Teardown.

(** What [sql.DB.Close] answers. *)
Variable on_Close : World -> DB -> option error.

Definition Database_Close (d : Database) (w : World) : option error * World :=
  (on_Close w (db d), w ++ [DBClose (db d)]).

(** [Close]: the primary, which is never nil, then every replica; the
    errors of the closes are dropped. *)
Definition Client_Close (c : Client) (w : World) : World :=
  let w := snd (Database_Close (primary c) w) in
  if 0 <? Z.of_nat (length (replicas c))
  then fold_left (fun w r => snd (Database_Close r w)) (replicas c) w
  else w.

End Teardown.

(** The error [Scan] meets on a row with [n] destinations, if any. *)
Definition scan_failure (n : nat) (row : DriverRow) : option error :=
  match scan_err row with
  | Some e => Some e
  | None =>
      if Nat.eqb (length (cells row)) n then None
      else Some (ErrScanArity (length (cells row)) n)
  end.

(* ================================================================== *)
(** ** Sample data *)
(* ================================================================== *)

Module Sample.

Definition conf (addr : string) : Config :=
  NewDefaultConfig addr "test" "root" "123456" false.

Definition p0 : Database := mkDatabase 0%nat (conf "10.0.0.1:3306").
Definition r1 : Database := mkDatabase 1%nat (conf "10.0.0.2:3306").
Definition r2 : Database := mkDatabase 2%nat (conf "10.0.0.3:3306").
Definition r3 : Database := mkDatabase 3%nat (conf "10.0.0.4:3306").

(** Two replicas, the counter at the largest [int32]. *)
Definition two_at_max : Client := mkClient p0 [r1; r2] MaxInt32.

(** Three replicas, the counter at the largest [int32]. *)
Definition three_at_max : Client := mkClient p0 [r1; r2; r3] MaxInt32.

(** Three replicas, a fresh counter. *)
Definition three_fresh : Client := mkClient p0 [r1; r2; r3] 0.

Definition bytes (s : string) : RawBytes := Some (list_byte_of_string s).
Definition NULL : RawBytes := None.

(** An open cursor on the given columns and rows. *)
Definition cursor_on (columns : list string) (data : list (list RawBytes))
  : sql.Rows :=
  mkRows columns (map (fun cs => mkDriverRow cs None) data) None false [].

(** [SELECT uid, name FROM users]: two rows, the first with a NULL
    name. *)
Definition users : sql.Rows :=
  cursor_on ["uid"; "name"]%string
    [[bytes "1"; NULL]; [bytes "2"; bytes "bob"]].

(** [SELECT a.id, b.id FROM a LEFT JOIN b ...]: both columns are named
    [id]; the first is NULL. *)
Definition join : sql.Rows :=
  cursor_on ["id"; "id"]%string [[NULL; bytes "5"]].

(** A cursor that reports no column. *)
Definition no_columns : sql.Rows := cursor_on [] [].

Definition of_rows (rs : sql.Rows) : Result :=
  buildResultRows p0 (Some rs).

(** The outcome of an [INSERT]. *)
Definition inserted : sql.Result := mkSqlResult (7, None) (1, None).

(** A library that opens pool [5] without error and answers every
    ping; queries and [Prepare] fail, mutations insert one row. *)
Definition healthy : Driver :=
  mkDriver (fun _ => "dsn"%string)
    (fun _ _ _ => inl 5%nat)
    (fun _ _ _ => None)
    (fun _ _ => inr (DriverError "no such table"))
    (fun _ _ => inl inserted)
    (fun _ _ _ _ => inr (DriverError "prepare"))
    (fun _ _ _ => inl 9%nat).

End Sample.

(** Further sample data. *)
Module Fixture.

(** A row [Scan] fails on. *)
Definition broken : DriverRow :=
  mkDriverRow [Sample.bytes "3"; Sample.NULL] (Some (DriverError "bad row")).

(** Three rows of [uid, name]; the second does not scan. *)
Definition users_broken : sql.Rows :=
  mkRows ["uid"; "name"]%string
    [mkDriverRow [Sample.bytes "1"; Sample.NULL] None;
     broken;
     mkDriverRow [Sample.bytes "2"; Sample.bytes "bob"] None]
    None false [].

(** No row at all. *)
Definition users_empty : sql.Rows :=
  Sample.cursor_on ["uid"; "name"]%string [].

(** A library on which every query and every mutation fails. *)
Definition failing : Driver :=
  mkDriver (fun _ => "dsn"%string)
    (fun _ _ _ => inl 5%nat)
    (fun _ _ _ => Some (DriverError "timeout"))
    (fun _ _ => inr (DriverError "gone away"))
    (fun _ _ => inr (DriverError "gone away"))
    (fun _ _ _ _ => inr (DriverError "gone away"))
    (fun _ _ _ => inr (DriverError "gone away")).

(** A library that answers queries with the [users] cursor. *)
Definition serving : Driver :=
  mkDriver (fun _ => "dsn"%string)
    (fun _ _ _ => inl 5%nat)
    (fun _ _ _ => None)
    (fun _ _ => inl Sample.users)
    (fun _ _ => inl Sample.inserted)
    (fun _ _ _ _ => inl 8%nat)
    (fun _ _ _ => inl 9%nat).

Definition ping_conf : Config :=
  WithPingTest true (Sample.conf "10.0.0.9:3306").

End Fixture.

(* ================================================================== *)
(** ** Arithmetic of the counter *)
(* ================================================================== *)

Lemma wrap_int32_small (z : Z) :
  MinInt32 <= z <= MaxInt32 -> wrap_int32 z = z.
Proof.
  unfold MinInt32, MaxInt32, wrap_int32. intros Hz.
  change (2 ^ 31) with 2147483648. change (2 ^ 32) with 4294967296.
  rewrite Z.mod_small; lia.
Qed.

Lemma wrap_int32_range (z : Z) : MinInt32 <= wrap_int32 z <= MaxInt32.
Proof.
  unfold MinInt32, MaxInt32, wrap_int32.
  change (2 ^ 31) with 2147483648. change (2 ^ 32) with 4294967296.
  pose proof (Z.mod_pos_bound (z + 2147483648) 4294967296). lia.
Qed.

Lemma AddInt32_no_overflow (x : Z) :
  MinInt32 <= x < MaxInt32 -> AddInt32 x 1 = x + 1.
Proof. intros Hx. unfold AddInt32. apply wrap_int32_small. lia. Qed.

Lemma AddInt32_overflow : AddInt32 MaxInt32 1 = MinInt32.
Proof. reflexivity. Qed.

(** A slice entry that exists is what indexing returns. *)
Lemma index_lookup {A : Type} (s : list A) (i : Z) (a : A) :
  0 <= i -> s !! Z.to_nat i = Some a -> index s i = Ret a.
Proof.
  intros Hi Hs. unfold index.
  pose proof (lookup_lt_Some _ _ _ Hs) as Hlt.
  replace (i <? 0) with false by (symmetry; apply Z.ltb_ge; lia).
  replace (Z.of_nat (length s) <=? i) with false
    by (symmetry; apply Z.leb_gt; lia).
  simpl. now rewrite Hs.
Qed.

Lemma index_negative {A : Type} (s : list A) (i : Z) :
  i < 0 -> index s i = Panic (IndexOutOfRange i (Z.of_nat (length s))).
Proof.
  intros Hi. unfold index.
  replace (i <? 0) with true by (symmetry; apply Z.ltb_lt; lia).
  reflexivity.
Qed.

(* ================================================================== *)
(** ** Read selection *)
(* ================================================================== *)

Lemma getr_no_replica (c : Client) :
  replicas c = [] -> getr c = (Ret (primary c), c).
Proof. intros H. unfold getr. rewrite H. reflexivity. Qed.

Lemma getr_one_replica (c : Client) (d : Database) :
  replicas c = [d] -> getr c = (Ret d, c).
Proof. intros H. unfold getr. rewrite H. reflexivity. Qed.

(** The third branch of [getr], whatever the counter: the counter is
    bumped (wrapping), and the slice is indexed with the truncated
    remainder. *)
Lemma getr_schedule (c : Client) :
  let n := Z.of_nat (length (replicas c)) in
  2 <= n <= MaxInt32 ->
  getr c = (index (replicas c) (Z.rem (AddInt32 (cursor c) 1) n),
            set_cursor c (AddInt32 (cursor c) 1)).
Proof.
  intros n Hn. unfold getr. fold n.
  replace (n <=? 0) with false by (symmetry; apply Z.leb_gt; lia).
  replace (n =? 1) with false by (symmetry; apply Z.eqb_neq; lia).
  rewrite wrap_int32_small by (unfold MinInt32; lia).
  unfold rem_int32.
  replace (n =? 0) with false by (symmetry; apply Z.eqb_neq; lia).
  reflexivity.
Qed.

(** While the counter stays non-negative the remainder is the modulus,
    an index in range: the replica at that position is selected. *)
Lemma getr_schedule_in_range (c : Client) :
  let n := Z.of_nat (length (replicas c)) in
  2 <= n <= MaxInt32 ->
  0 <= cursor c < MaxInt32 ->
  exists d,
    replicas c !! Z.to_nat ((cursor c + 1) mod n) = Some d /\
    getr c = (Ret d, set_cursor c (cursor c + 1)).
Proof.
  intros n Hn Hc.
  pose proof (Z.mod_pos_bound (cursor c + 1) n ltac:(lia)) as Hm.
  destruct (lookup_lt_is_Some_2 (replicas c) (Z.to_nat ((cursor c + 1) mod n)))
    as [d Hd]; [lia|].
  exists d. split; [exact Hd|].
  rewrite getr_schedule by exact Hn. fold n.
  rewrite AddInt32_no_overflow by (unfold MinInt32; lia).
  rewrite Z.rem_mod_nonneg by lia.
  now rewrite (index_lookup _ _ d) by (lia || exact Hd).
Qed.

(** [k] selections in a row from a non-negative counter that does not
    reach past [MaxInt32]: all return, the [j]-th one with the replica
    at position [(cursor + 1 + j) mod n]. *)
Lemma getr_times_schedule (k : nat) : forall c : Client,
  let n := Z.of_nat (length (replicas c)) in
  2 <= n <= MaxInt32 ->
  0 <= cursor c ->
  cursor c + Z.of_nat k <= MaxInt32 ->
  exists ds : list Database,
    getr_times k c = (map Ret ds, set_cursor c (cursor c + Z.of_nat k)) /\
    length ds = k /\
    forall j : nat, (j < k)%nat ->
      ds !! j = replicas c !! Z.to_nat ((cursor c + 1 + Z.of_nat j) mod n).
Proof.
  induction k as [|k IH]; intros c n Hn Hc Hk.
  - exists []. repeat split.
    + simpl. unfold set_cursor. destruct c; simpl. f_equal. f_equal. lia.
    + intros j Hj. lia.
  - destruct (getr_schedule_in_range c Hn ltac:(lia)) as (d & Hd & Hg).
    destruct (IH (set_cursor c (cursor c + 1)) Hn ltac:(simpl; lia)
                ltac:(simpl; lia)) as (ds & Hds & Hlen & Hnth).
    exists (d :: ds). repeat split.
    + cbn [getr_times]. rewrite Hg, Hds. simpl. unfold set_cursor. simpl.
      do 2 f_equal. lia.
    + simpl. now rewrite Hlen.
    + intros [|j] Hj.
      * replace (cursor c + 1 + Z.of_nat 0) with (cursor c + 1) by lia.
        symmetry. exact Hd.
      * change ((d :: ds) !! S j) with (ds !! j).
        rewrite Hnth by lia.
        change (replicas (set_cursor c (cursor c + 1))) with (replicas c).
        change (cursor (set_cursor c (cursor c + 1))) with (cursor c + 1).
        do 3 f_equal. lia.
Qed.

(** A rotation serves every position once. *)
Lemma rotate_Permutation {A : Type} (s : nat) (l : list A) :
  Permutation (rotate s l) l.
Proof.
  unfold rotate. generalize (s `mod` length l)%nat. intros k.
  transitivity (take k l ++ drop k l).
  - apply Permutation_app_comm.
  - now rewrite take_drop.
Qed.

(** The counter of a client with at least two replicas reaches every
    value up to [MaxInt32]: it is [k] after [k] selections. *)
Lemma cursor_reaches (k : nat) (c : Client) :
  2 <= Z.of_nat (length (replicas c)) <= MaxInt32 ->
  cursor c = 0 ->
  Z.of_nat k <= MaxInt32 ->
  snd (getr_times k c) = set_cursor c (Z.of_nat k).
Proof.
  intros Hn Hc Hk.
  destruct (getr_times_schedule k c Hn ltac:(lia) ltac:(lia))
    as (ds & Hds & _).
  rewrite Hds, Hc. reflexivity.
Qed.

(** C1, at the input where the code departs from it. A client with
    three replicas whose counter is [MaxInt32] (reached after that many
    scheduled reads, see [cursor_reaches]): the atomic add wraps to
    [MinInt32], the remainder by 3 is [-2], and indexing the replicas
    panics. The selection the claim describes is the replica at position
    [MinInt32 mod 3 = 1]; no replica is selected. *)
Theorem getr_panics_at_MaxInt32 (p d1 d2 d3 : Database) :
  getr (mkClient p [d1; d2; d3] MaxInt32)
  = (Panic (IndexOutOfRange (-2) 3), mkClient p [d1; d2; d3] MinInt32)
  /\ [d1; d2; d3] !! Z.to_nat (MinInt32 mod 3) = Some d2.
Proof. split; reflexivity. Qed.

(** Round robin while the counter stays in range. With [n >= 2]
    replicas and a counter [c >= 0] such that [c + n <= MaxInt32], [n]
    consecutive read selections all return, and the replicas they
    return, in call order, are the replica sequence rotated by [c + 1]:
    every position is served exactly once, in cyclic order. The counter
    ends at [c + n]. *)
Theorem getr_round_robin (c : Client) :
  let n := length (replicas c) in
  let served := rotate (Z.to_nat (cursor c + 1)) (replicas c) in
  (2 <= n)%nat ->
  0 <= cursor c ->
  cursor c + Z.of_nat n <= MaxInt32 ->
  getr_times n c = (map Ret served, set_cursor c (cursor c + Z.of_nat n))
  /\ Permutation served (replicas c).
Proof.
  intros n served Hn Hc Hmax. split; [|apply rotate_Permutation].
  destruct (getr_times_schedule n c ltac:(fold n; lia) Hc Hmax)
    as (ds & Hds & Hlen & Hnth).
  rewrite Hds. do 2 f_equal.
  apply list_eq. intros j.
  destruct (decide (j < n)%nat) as [Hj|Hj].
  - rewrite Hnth by exact Hj. unfold served.
    rewrite lookup_rotate_r by exact Hj.
    unfold rotate_nat_add. fold n. do 3 f_equal. lia.
  - rewrite !lookup_ge_None_2; [reflexivity | | lia].
    unfold served. rewrite length_rotate. fold n. lia.
Qed.

Lemma getr_round_robin_witness :
  getr_times 3 Sample.three_fresh
  = (map Ret [Sample.r2; Sample.r3; Sample.r1],
     set_cursor Sample.three_fresh 3)
  /\ Permutation [Sample.r2; Sample.r3; Sample.r1]
       [Sample.r1; Sample.r2; Sample.r3].
Proof.
  apply (getr_round_robin Sample.three_fresh).
  - simpl. lia.
  - simpl. lia.
  - unfold MaxInt32. simpl. lia.
Defined.

(** C2, at an input where the code departs from it. Two replicas and
    the counter at [MaxInt32] (reached after that many scheduled reads,
    see [cursor_reaches]): the first selection wraps the counter to
    [MinInt32] and returns the first replica; the second computes the
    remainder [-1] and panics. The two calls do not serve each replica
    once: the second replica is never selected. *)
Lemma getr_round_robin_fails_at_MaxInt32 :
  fst (getr_times 2 Sample.two_at_max)
  = [Ret Sample.r1; Panic (IndexOutOfRange (-1) 2)]
  /\ ~ (exists served : list Database,
          fst (getr_times 2 Sample.two_at_max) = map Ret served
          /\ Permutation served (replicas Sample.two_at_max)).
Proof.
  split; [reflexivity|].
  intros (served & Hs & _).
  change (fst (getr_times 2 Sample.two_at_max))
    with [Ret Sample.r1; Panic (A := Database) (IndexOutOfRange (-1) 2)] in Hs.
  destruct served as [|a [|b rest]]; simpl in Hs; discriminate Hs.
Qed.

(** C3, on the code. For a replica count [n >= 2], when the counter
    after the atomic add is negative and not a multiple of [n], the
    index the selection computes is negative, outside [0..n-1], and the
    call panics. *)
Theorem getr_index_negative (c : Client) :
  let n := Z.of_nat (length (replicas c)) in
  let v := AddInt32 (cursor c) 1 in
  2 <= n <= MaxInt32 ->
  v < 0 ->
  Z.rem v n <> 0 ->
  Z.rem v n < 0
  /\ getr c = (Panic (IndexOutOfRange (Z.rem v n) n), set_cursor c v).
Proof.
  intros n v Hn Hv Hrem.
  assert (Hneg : Z.rem v n < 0).
  { pose proof (Z.rem_nonpos v n ltac:(lia) ltac:(lia)). lia. }
  split; [exact Hneg|].
  rewrite getr_schedule by exact Hn. fold n v.
  now rewrite index_negative by exact Hneg.
Qed.

Lemma getr_index_negative_witness :
  Z.rem MinInt32 3 < 0
  /\ getr Sample.three_at_max
     = (Panic (IndexOutOfRange (Z.rem MinInt32 3) 3),
        set_cursor Sample.three_at_max MinInt32).
Proof.
  apply (getr_index_negative Sample.three_at_max).
  - unfold MaxInt32. simpl. lia.
  - reflexivity.
  - discriminate.
Defined.

(* ================================================================== *)
(** ** Writes and transactions *)
(* ================================================================== *)

(** C4. [Exec], [ExecContext], [BeginTransaction] and
    [BeginTransactionContext] of a client are the calls of the same name
    on its primary database: the one call they make on the library is on
    the primary's pool, the [Result] is tagged with the primary's
    identifier, a transaction is bound to the primary, and the replicas
    play no part, however many are registered. *)
Theorem writes_go_to_primary (drv : Driver) (c : Client) (ctx : Ctx)
    (query : string) (args : list Value) (w : World) :
  (Client_Exec drv c query args w = Database_Exec drv (primary c) query args w
   /\ snd (Client_Exec drv c query args w)
      = w ++ [DBExecContext (db (primary c)) defaultCtx query args]
   /\ hit (fst (fst (Client_Exec drv c query args w))) = UniqId (cf (primary c)))
  /\
  (Client_ExecContext drv c ctx query args w
   = Database_ExecContext drv (primary c) ctx query args w
   /\ snd (Client_ExecContext drv c ctx query args w)
      = w ++ [DBExecContext (db (primary c)) ctx query args]
   /\ hit (fst (fst (Client_ExecContext drv c ctx query args w)))
      = UniqId (cf (primary c)))
  /\
  (Client_BeginTransaction drv c w = Database_BeginTransaction drv (primary c) w
   /\ snd (Client_BeginTransaction drv c w)
      = w ++ [DBBeginTx (db (primary c)) defaultCtx]
   /\ match fst (Client_BeginTransaction drv c w) with
      | inl t => tx_db t = primary c
      | inr e => on_BeginTx drv w (db (primary c)) defaultCtx = inr e
      end)
  /\
  (Client_BeginTransactionContext drv c ctx w
   = Database_BeginTransactionContext drv (primary c) ctx w
   /\ snd (Client_BeginTransactionContext drv c ctx w)
      = w ++ [DBBeginTx (db (primary c)) ctx]
   /\ match fst (Client_BeginTransactionContext drv c ctx w) with
      | inl t => tx_db t = primary c
      | inr e => on_BeginTx drv w (db (primary c)) ctx = inr e
      end).
Proof.
  unfold Client_Exec, Client_ExecContext, Client_BeginTransaction,
    Client_BeginTransactionContext, Database_Exec, Database_BeginTransaction,
    Database_ExecContext, Database_BeginTransactionContext, getp.
  repeat split.
  - destruct (go_pair _); reflexivity.
  - destruct (go_pair _); reflexivity.
  - destruct (go_pair _); reflexivity.
  - destruct (go_pair _); reflexivity.
  - simpl. destruct (on_BeginTx _ _ _ _); reflexivity.
  - simpl. destruct (on_BeginTx _ _ _ _); reflexivity.
Qed.

(* ================================================================== *)
(** ** Registration of a replica *)
(* ================================================================== *)

(** C5. [SetReplica] with a nil configuration returns
    [ErrorClientInvalidReplica] and leaves the client as it was. With a
    configuration, an error of [sql.Open], or of the start-up ping when
    [PingTest] is set, is returned as it is and the client is left as it
    was; otherwise the new database is appended at the end of the
    replicas. *)
Theorem SetReplica_outcomes (drv : Driver) (c : Client) (w : World) :
  SetReplica drv c None w = (Some ErrorClientInvalidReplica, c, w)
  /\
  forall conf : Config,
    let dsn := FormatDSN drv (Config_driver conf) in
    let ctx := WithTimeout defaultCtx (driver.Timeout (Config_driver conf)) in
    let opened d := w ++ [Open "mysql" dsn; SetConnMaxLifetime d (MaxLifetime conf);
                          SetMaxOpenConns d (MaxOpenConns conf);
                          SetMaxIdleConns d (MaxIdleConns conf)] in
    let appended d :=
      mkClient (primary c) (replicas c ++ [mkDatabase d conf]) (cursor c) in
    match on_Open drv w "mysql" dsn with
    | inr err => fst (SetReplica drv c (Some conf) w) = (Some err, c)
    | inl d =>
        if PingTest conf then
          match on_Ping drv (opened d) d ctx with
          | Some err => fst (SetReplica drv c (Some conf) w) = (Some err, c)
          | None => fst (SetReplica drv c (Some conf) w) = (None, appended d)
          end
        else fst (SetReplica drv c (Some conf) w) = (None, appended d)
    end.
Proof.
  split; [reflexivity|].
  intros conf dsn ctx opened appended.
  unfold SetReplica, NewDatabaseWithConfig. fold dsn.
  destruct (on_Open drv w "mysql" dsn) as [d|err]; [|reflexivity].
  destruct (PingTest conf); [|reflexivity].
  fold ctx. unfold opened. rewrite <- app_assoc. simpl.
  destruct (on_Ping drv _ d ctx); reflexivity.
Qed.

(* ================================================================== *)
(** ** Materialisation of a row *)
(* ================================================================== *)

(** A key that no remaining column carries keeps its entry. *)
Lemma fill_row_untouched (columns : list string) (name : string) :
  forall (values : list RawBytes) (i : nat) (row : gmap string string),
    (forall j : nat, (j < length values)%nat ->
       nth (i + j) columns ""%string <> name) ->
    fill_row columns i values row !! name = row !! name.
Proof.
  induction values as [|value rest IH]; intros i row Hfree; [reflexivity|].
  cbn [fill_row]. rewrite IH.
  - apply lookup_insert_ne.
    specialize (Hfree 0%nat ltac:(simpl; lia)).
    now rewrite Nat.add_0_r in Hfree.
  - intros j Hj. specialize (Hfree (S j) ltac:(simpl; lia)).
    now rewrite Nat.add_succ_r in Hfree.
Qed.

(** The entry of a key is the decoded value of the last column that
    carries it. *)
Lemma fill_row_last (columns : list string) :
  forall (values : list RawBytes) (i : nat) (row : gmap string string)
         (j : nat) (value : RawBytes),
    values !! j = Some value ->
    (forall j' : nat, (j < j' < length values)%nat ->
       nth (i + j') columns ""%string <> nth (i + j) columns ""%string) ->
    fill_row columns i values row !! nth (i + j) columns ""%string
    = Some (decode value).
Proof.
  induction values as [|v rest IH]; intros i row j value Hj Hlast.
  - discriminate Hj.
  - destruct j as [|j]; cbn [fill_row].
    + injection Hj as ->. rewrite Nat.add_0_r.
      rewrite fill_row_untouched.
      * apply lookup_insert_eq.
      * intros j Hlt. specialize (Hlast (S j) ltac:(simpl; lia)).
        now rewrite Nat.add_0_r, Nat.add_succ_r in Hlast.
    + rewrite Nat.add_succ_r. apply (IH (S i) _ j value Hj).
      intros j' Hlt. specialize (Hlast (S j') ltac:(simpl; lia)).
      now rewrite !Nat.add_succ_r in Hlast.
Qed.

(** The same, on the whole column list and by column name. *)
Lemma fill_row_column (columns : list string) (values : list RawBytes)
    (i : nat) (name : string) (value : RawBytes) :
  length values = length columns ->
  columns !! i = Some name ->
  values !! i = Some value ->
  (forall i' : nat, (i < i')%nat -> columns !! i' <> Some name) ->
  fill_row columns 0 values ∅ !! name = Some (decode value).
Proof.
  intros Hlen Hname Hvalue Hlast.
  assert (Hnth : forall k s, columns !! k = Some s ->
                             nth k columns ""%string = s).
  { intros k s Hk. now apply nth_lookup_Some with (d := ""%string) in Hk. }
  rewrite <- (Hnth i name Hname).
  apply (fill_row_last columns values 0 ∅ i value Hvalue).
  intros i' Hlt. simpl. rewrite (Hnth i name Hname).
  destruct (lookup_lt_is_Some_2 columns i') as [s Hs]; [lia|].
  rewrite (Hnth i' s Hs). intros ->. now apply (Hlast i' ltac:(lia)).
Qed.

(** The loop of [Rows] on an open cursor, with fuel for every row and
    the last [Next]: it returns; it calls [Next] and [Scan] only; when it
    returns no error the cursor is exhausted and closed by that, and
    every row was appended, in order; and it returns no error when every
    row scans. *)
Lemma Rows_loop_spec (columns : list string) (n : nat) :
  forall (fuel : nat) (rs : sql.Rows) (acc : slice (gmap string string)),
    rs_closed rs = false ->
    (length (rs_pending rs) < fuel)%nat ->
    exists out rs',
      Rows_loop fuel columns n rs acc = Some (out, rs')
      /\ rs_columns rs' = rs_columns rs
      /\ (exists delta, rs_calls rs' = rs_calls rs ++ delta
                        /\ ~ In CClose delta)
      /\ (snd out = None ->
          rs_pending rs' = [] /\ rs_closed rs' = true
          /\ rs_calls rs'
             = rs_calls rs
               ++ flat_map (fun _ => [CNext; CScan]) (rs_pending rs) ++ [CNext]
          /\ elems (fst out)
             = elems acc ++ map (row_map columns) (rs_pending rs)
          /\ (acc = None -> rs_pending rs = [] -> fst out = None))
      /\ (Forall (scans n) (rs_pending rs) -> snd out = None).
Proof.
  induction fuel as [|fuel IH]; intros rs acc Hopen Hfuel; [lia|].
  destruct rs as [cols pending last closed calls]. simpl in Hopen, Hfuel.
  subst closed. cbn [Rows_loop]. unfold Next. simpl.
  destruct pending as [|row rest].
  - eexists _, _. split; [reflexivity|]. simpl. split_and!.
    + reflexivity.
    + exists [CNext]. split; [reflexivity|]. intros [H|[]]. discriminate H.
    + intros _. split_and!; try reflexivity.
      * now rewrite app_nil_r.
      * tauto.
    + reflexivity.
  - unfold Scan. simpl.
    destruct (scan_err row) as [e|] eqn:He.
    { eexists _, _. split; [reflexivity|]. simpl. split_and!.
      - reflexivity.
      - exists [CNext; CScan]. split; [now rewrite <- app_assoc|].
        intros [H|[H|[]]]; discriminate H.
      - discriminate.
      - intros Hall. inversion Hall as [|? ? [Hs _] _]. congruence. }
    destruct (Nat.eqb (length (cells row)) n) eqn:Hlen.
    2:{ eexists _, _. split; [reflexivity|]. simpl. split_and!.
        - reflexivity.
        - exists [CNext; CScan]. split; [now rewrite <- app_assoc|].
          intros [H|[H|[]]]; discriminate H.
        - discriminate.
        - intros Hall. inversion Hall as [|? ? [_ Hs] _].
          apply Nat.eqb_neq in Hlen. congruence. }
    unfold called. simpl.
    destruct (IH (mkRows cols rest (Some row) false ((calls ++ [CNext]) ++ [CScan]))
                (append acc (fill_row columns 0 (cells row) ∅))
                eq_refl ltac:(simpl in *; lia))
      as (out & rs' & Hrun & Hcols & (delta & Hdelta & Hclose) & Hdone & Hall).
    simpl in Hcols, Hdelta, Hdone, Hall.
    exists out, rs'. split; [exact Hrun|]. simpl. split_and!.
    + exact Hcols.
    + exists ([CNext; CScan] ++ delta). split.
      * rewrite Hdelta. now rewrite <- !app_assoc.
      * intros Hin. apply in_app_or in Hin as [[H|[H|[]]]|Hin];
          [discriminate H | discriminate H | now apply Hclose].
    + intros Hok. destruct (Hdone Hok) as (Hp & Hc & Hcalls & Helems & _).
      split_and!.
      * exact Hp.
      * exact Hc.
      * rewrite Hcalls. now rewrite <- !app_assoc.
      * rewrite Helems. unfold row_map at 2.
        destruct acc; simpl; [now rewrite <- app_assoc | reflexivity].
      * discriminate.
    + intros Hf. apply Hall. now inversion Hf.
Qed.

Lemma row_map_materialises (columns : list string) (row : DriverRow) :
  scans (length columns) row -> materialises columns row (row_map columns row).
Proof.
  intros [_ Hlen] i name value Hname Hvalue Hlast.
  unfold row_map.
  now rewrite (fill_row_column columns (cells row) i name value).
Qed.

(** [Row] on an open cursor with a column: what it does to the cursor
    and what it returns, by the first row. *)
Lemma Result_Row_open (r : Result) (rs : sql.Rows) :
  rows r = Some rs ->
  rs_closed rs = false ->
  rs_columns rs <> [] ->
  let cols := rs_columns rs in
  let calls := rs_calls rs in
  Result_Row r =
    match rs_pending rs with
    | [] =>
        ((None, None),
         moved r (mkRows cols [] None true (calls ++ [CColumns; CNext])))
    | row :: rest =>
        match scan_err row with
        | Some e =>
            ((None, Some e),
             moved r (mkRows cols rest (Some row) false
                        (calls ++ [CColumns; CNext; CScan])))
        | None =>
            if Nat.eqb (length (cells row)) (length cols) then
              ((Some (row_map cols row), None),
               moved r (mkRows cols rest (Some row) true
                          (calls ++ [CColumns; CNext; CScan; CClose])))
            else
              ((None, Some (ErrScanArity (length (cells row)) (length cols))),
               moved r (mkRows cols rest (Some row) false
                          (calls ++ [CColumns; CNext; CScan])))
        end
    end.
Proof.
  intros Hrows Hopen Hcols cols calls. unfold Result_Row. rewrite Hrows.
  destruct rs as [cs pending last closed cl]. simpl in *. subst closed.
  unfold Columns. simpl.
  destruct cs as [|c0 cs]; [congruence|]. cbn [length Nat.eqb].
  unfold Next. simpl.
  destruct pending as [|row rest].
  - subst cols calls. now rewrite <- app_assoc.
  - subst cols calls. unfold Scan, Close, called. simpl. rewrite repeat_length.
    destruct (scan_err row); [now rewrite <- !app_assoc|].
    cbn [length].
    destruct (Nat.eqb (length (cells row)) (S (length cs)));
      simpl; now rewrite <- !app_assoc.
Qed.

(** [Rows] on an open cursor with a column is its loop. *)
Lemma Result_Rows_open (r : Result) (rs : sql.Rows) :
  rows r = Some rs ->
  rs_closed rs = false ->
  rs_columns rs <> [] ->
  Result_Rows r =
    match Rows_loop (S (length (rs_pending rs))) (rs_columns rs)
            (length (rs_columns rs)) (called CColumns rs) None with
    | Some (out, rs') => Some (out, moved r rs')
    | None => None
    end.
Proof.
  intros Hrows Hopen Hcols. unfold Result_Rows. rewrite Hrows.
  unfold Columns. rewrite Hopen.
  destruct (rs_columns rs) as [|c0 cs] eqn:Hcs; [congruence|].
  cbn [length Nat.eqb]. rewrite repeat_length. reflexivity.
Qed.

(** [Rows] always returns: the fuel of its loop suffices. *)
Lemma Result_Rows_returns (r : Result) : is_Some (Result_Rows r).
Proof.
  destruct (rows r) as [rs|] eqn:Hrows.
  2:{ unfold Result_Rows. rewrite Hrows. eauto. }
  destruct (rs_closed rs) eqn:Hopen.
  { unfold Result_Rows, Columns. rewrite Hrows, Hopen. eauto. }
  destruct (rs_columns rs) as [|c0 cs] eqn:Hcols.
  { unfold Result_Rows, Columns. rewrite Hrows, Hopen, Hcols. simpl. eauto. }
  rewrite (Result_Rows_open r rs Hrows Hopen) by (rewrite Hcols; discriminate).
  destruct (Rows_loop_spec (rs_columns rs) (length (rs_columns rs))
              (S (length (rs_pending rs))) (called CColumns rs) None
              Hopen ltac:(simpl; lia)) as (out & rs' & Hrun & _).
  rewrite Hrun. eauto.
Qed.

(* ================================================================== *)
(** ** [Row] and [Rows] *)
(* ================================================================== *)

(** C6. When the cursor of a row-set [Result] reports zero columns,
    [Row] and [Rows] both return [ErrorResultNoColumnsFound]. *)
Theorem no_columns_found (r : Result) (rs : sql.Rows) :
  rows r = Some rs ->
  fst (Columns rs) = ([], None) ->
  fst (Result_Row r) = (None, Some ErrorResultNoColumnsFound)
  /\ fst <$> Result_Rows r = Some (None, Some ErrorResultNoColumnsFound).
Proof.
  intros Hrows Hcols. unfold Result_Row, Result_Rows. rewrite Hrows.
  destruct (Columns rs) as [[columns err] rs1]. simpl in Hcols.
  injection Hcols as -> ->. split; reflexivity.
Qed.

Lemma no_columns_found_witness :
  fst (Result_Row (Sample.of_rows Sample.no_columns))
  = (None, Some ErrorResultNoColumnsFound)
  /\ fst <$> Result_Rows (Sample.of_rows Sample.no_columns)
     = Some (None, Some ErrorResultNoColumnsFound).
Proof.
  apply (no_columns_found (Sample.of_rows Sample.no_columns) Sample.no_columns).
  - reflexivity.
  - reflexivity.
Defined.

(** C7, as amended. On an open cursor with a column: when the first row
    scans, [Row] returns without error a mapping which holds, under the
    name of every column that no later column repeats, the empty string
    when the column is NULL and the bytes of the value as a string
    otherwise; when every row scans, [Rows] returns without error one
    such mapping per row, in cursor order. *)
Theorem NULL_is_empty_string (r : Result) (rs : sql.Rows) :
  rows r = Some rs ->
  rs_closed rs = false ->
  rs_columns rs <> [] ->
  (forall (row : DriverRow) (rest : list DriverRow),
     rs_pending rs = row :: rest ->
     scans (length (rs_columns rs)) row ->
     exists m r',
       Result_Row r = ((Some m, None), r')
       /\ materialises (rs_columns rs) row m)
  /\
  (Forall (scans (length (rs_columns rs))) (rs_pending rs) ->
   exists ms r',
     Result_Rows r = Some ((ms, None), r')
     /\ length (elems ms) = length (rs_pending rs)
     /\ forall (k : nat) (row : DriverRow),
          rs_pending rs !! k = Some row ->
          exists m, elems ms !! k = Some m
                    /\ materialises (rs_columns rs) row m).
Proof.
  intros Hrows Hopen Hcols. split.
  - intros row rest Hpending [Herr Hlen].
    rewrite (Result_Row_open r rs Hrows Hopen Hcols), Hpending, Herr.
    rewrite Hlen, Nat.eqb_refl.
    eexists _, _. split; [reflexivity|].
    apply row_map_materialises. now split.
  - intros Hall.
    rewrite (Result_Rows_open r rs Hrows Hopen Hcols).
    destruct (Rows_loop_spec (rs_columns rs) (length (rs_columns rs))
                (S (length (rs_pending rs))) (called CColumns rs) None
                Hopen ltac:(simpl; lia))
      as (out & rs' & Hrun & _ & _ & Hdone & Hok).
    rewrite Hrun. destruct out as [ms err]. simpl in Hdone, Hok.
    specialize (Hok Hall). subst err.
    destruct (Hdone eq_refl) as (_ & _ & _ & Helems & _). simpl in Helems.
    exists ms, (moved r rs'). split; [reflexivity|]. split.
    + now rewrite Helems, length_map.
    + intros k row Hk. exists (row_map (rs_columns rs) row). split.
      * rewrite Helems, list_lookup_fmap, Hk. reflexivity.
      * apply row_map_materialises.
        rewrite Forall_forall in Hall. apply Hall.
        eapply list_elem_of_lookup_2. exact Hk.
Qed.

Lemma NULL_is_empty_string_witness :
  (exists m r',
     Result_Row (Sample.of_rows Sample.users) = ((Some m, None), r')
     /\ materialises ["uid"; "name"]%string
          (mkDriverRow [Sample.bytes "1"; Sample.NULL] None) m)
  /\
  (exists ms r',
     Result_Rows (Sample.of_rows Sample.users) = Some ((ms, None), r')
     /\ length (elems ms) = 2%nat
     /\ forall (k : nat) (row : DriverRow),
          rs_pending Sample.users !! k = Some row ->
          exists m, elems ms !! k = Some m
                    /\ materialises ["uid"; "name"]%string row m).
Proof.
  destruct (NULL_is_empty_string (Sample.of_rows Sample.users) Sample.users
              eq_refl eq_refl ltac:(discriminate)) as [HRow HRows].
  split.
  - apply (HRow _ _ eq_refl). split; reflexivity.
  - apply HRows. repeat constructor.
Defined.

(** C7 as stated fails in two ways. When two columns carry one name:
    on the row [(NULL, "5")] of columns [id], [id], the mapping of [Row]
    and of [Rows] holds ["5"] under [id]; the NULL of the first column
    is not materialised as the empty string. And when a later row does
    not scan: the first row of [Fixture.users_broken] scans and has a
    NULL [name], yet [Rows] returns the error of [Scan] and nil, so
    that NULL is not materialised at all. *)
Lemma NULL_not_materialised :
  map_get (fst (fst (Result_Row (Sample.of_rows Sample.join)))) "id"
  = Some "5"%string
  /\ (fun out => (fun m : gmap string string => m !! "id"%string)
                   <$> elems (fst (fst out)))
       <$> Result_Rows (Sample.of_rows Sample.join)
     = Some [Some "5"%string]
  /\ ~ (forall (i : nat) (name : string),
          rs_columns Sample.join !! i = Some name ->
          [Sample.NULL; Sample.bytes "5"] !! i = Some Sample.NULL ->
          map_get (fst (fst (Result_Row (Sample.of_rows Sample.join)))) name
          = Some ""%string)
  /\ rs_pending Fixture.users_broken !! 0%nat
     = Some (mkDriverRow [Sample.bytes "1"; Sample.NULL] None)
  /\ scans 2 (mkDriverRow [Sample.bytes "1"; Sample.NULL] None)
  /\ fst <$> Result_Rows (Sample.of_rows Fixture.users_broken)
     = Some (None, Some (DriverError "bad row")).
Proof.
  assert (H : map_get (fst (fst (Result_Row (Sample.of_rows Sample.join)))) "id"
              = Some "5"%string) by (vm_compute; reflexivity).
  split; [exact H|]. split; [vm_compute; reflexivity|]. split.
  - intros Hclaim.
    specialize (Hclaim 0%nat "id"%string eq_refl eq_refl).
    rewrite H in Hclaim. discriminate Hclaim.
  - split_and!; try reflexivity. split; reflexivity.
Qed.

(** C8. A [Result] without a row-set, as [buildResult] makes it for a
    mutation: [Row] returns the nil map and no error, [Rows] the nil
    slice and no error; both are empty, and the [Result] is untouched. *)
Theorem mutation_result_is_empty (d : Database) (outcome : option sql.Result) :
  let r := buildResult d outcome in
  rows r = None
  /\ Result_Row r = ((None, None), r)
  /\ Result_Rows r = Some ((None, None), r)
  /\ map_len (fst (fst (Result_Row r))) = 0%nat
  /\ (forall k : string, map_get (fst (fst (Result_Row r))) k = None)
  /\ (slice_len ∘ fst ∘ fst) <$> Result_Rows r = Some 0%nat.
Proof. intros r. split_and!; try reflexivity. Qed.

(** The loop of [Rows] on an open cursor whose rows all scan: it
    returns no error and every mapping, and leaves the cursor exhausted,
    closed by its last [Next], having called [Next] and [Scan] once per
    row and [Next] once more. *)
Lemma Rows_loop_all_scan (columns : list string) (n : nat) :
  forall (pending : list DriverRow) (fuel : nat) (rs : sql.Rows)
         (acc : slice (gmap string string)),
    Forall (scans n) pending ->
    rs_closed rs = false ->
    rs_pending rs = pending ->
    (length pending < fuel)%nat ->
    Rows_loop fuel columns n rs acc
    = Some ((fold_left append (map (row_map columns) pending) acc, None),
            mkRows (rs_columns rs) [] None true
              (rs_calls rs
                 ++ flat_map (fun _ => [CNext; CScan]) pending ++ [CNext])).
Proof.
  induction pending as [|row pending IH];
    intros fuel rs acc Hall Hopen Hpending Hfuel;
    (destruct fuel as [|fuel]; [simpl in Hfuel; lia|]);
    destruct rs as [cols pend last closed calls];
    simpl in Hopen, Hpending; subst closed pend;
    cbn [Rows_loop]; unfold Next, Scan, called; simpl.
  - reflexivity.
  - inversion Hall as [|? ? [Herr Hlen] Hall']. subst.
    rewrite Herr, Nat.eqb_refl.
    erewrite IH;
      [simpl; now rewrite <- !app_assoc | exact Hall' | reflexivity
      | reflexivity | simpl in Hfuel; lia].
Qed.

(** C9, as amended. On an open cursor with a column: [Row] fetches at
    most the first row, the rows left being those after it; when the
    first row scans, [Row] returns its mapping without error and its
    calls on the cursor are [Columns], [Next], [Scan], [Close], in that
    order, so that the cursor is closed right after the first row is
    read and the rows after it stay unread; when there is no row, [Row]
    returns nil and the cursor has closed itself. When every row scans,
    [Rows] returns without error one mapping per row, in order, its
    calls are [Columns], then [Next] and [Scan] once per row, then the
    [Next] that finds the cursor exhausted, and no row is left. In no
    case does [Rows] call [Close]. *)
Theorem Row_closes_early_Rows_exhausts (r : Result) (rs : sql.Rows) :
  let cols := rs_columns rs in
  rows r = Some rs ->
  rs_closed rs = false ->
  rs_columns rs <> [] ->
  (exists out rs',
     Result_Row r = (out, moved r rs')
     /\ rs_pending rs' = tail (rs_pending rs))
  /\
  (forall (row : DriverRow) (rest : list DriverRow),
     rs_pending rs = row :: rest ->
     scans (length cols) row ->
     Result_Row r
     = ((Some (row_map cols row), None),
        moved r (mkRows cols rest (Some row) true
                   (rs_calls rs ++ [CColumns; CNext; CScan; CClose]))))
  /\
  (rs_pending rs = [] ->
   Result_Row r
   = ((None, None),
      moved r (mkRows cols [] None true (rs_calls rs ++ [CColumns; CNext]))))
  /\
  (Forall (scans (length cols)) (rs_pending rs) ->
   Result_Rows r
   = Some ((fold_left append (map (row_map cols) (rs_pending rs)) None, None),
           moved r (mkRows cols [] None true
                      (rs_calls rs ++ CColumns
                         :: flat_map (fun _ => [CNext; CScan]) (rs_pending rs)
                         ++ [CNext]))))
  /\
  (exists out rs' delta,
     Result_Rows r = Some (out, moved r rs')
     /\ rs_calls rs' = rs_calls rs ++ CColumns :: delta
     /\ ~ In CClose delta).
Proof.
  intros cols Hrows Hopen Hcols.
  pose proof (Result_Row_open r rs Hrows Hopen Hcols) as HRow.
  cbv zeta in HRow. fold cols in HRow.
  split_and!.
  - rewrite HRow. destruct (rs_pending rs) as [|row rest].
    { eexists _, _. split; reflexivity. }
    destruct (scan_err row); [eexists _, _; split; reflexivity|].
    destruct (Nat.eqb _ _); eexists _, _; split; reflexivity.
  - intros row rest Hpending [Herr Hlen].
    rewrite HRow, Hpending, Herr, Hlen, Nat.eqb_refl. reflexivity.
  - intros Hpending. rewrite HRow, Hpending. reflexivity.
  - intros Hall.
    rewrite (Result_Rows_open r rs Hrows Hopen Hcols). fold cols.
    rewrite (Rows_loop_all_scan cols (length cols) (rs_pending rs) _
               (called CColumns rs) None Hall Hopen eq_refl)
      by (simpl; lia).
    simpl. now rewrite <- app_assoc.
  - rewrite (Result_Rows_open r rs Hrows Hopen Hcols).
    destruct (Rows_loop_spec (rs_columns rs) (length (rs_columns rs))
                (S (length (rs_pending rs))) (called CColumns rs) None
                Hopen ltac:(simpl; lia))
      as (out & rs' & Hrun & _ & (delta & Hdelta & Hclose) & _).
    rewrite Hrun. simpl in Hdelta.
    exists out, rs', delta. split_and!; [reflexivity | | exact Hclose].
    rewrite Hdelta. now rewrite <- app_assoc.
Qed.

Lemma Row_closes_early_Rows_exhausts_witness :
  Result_Row (Sample.of_rows Sample.users)
  = ((Some (row_map ["uid"; "name"]%string
              (mkDriverRow [Sample.bytes "1"; Sample.NULL] None)), None),
     moved (Sample.of_rows Sample.users)
       (mkRows ["uid"; "name"]%string
          [mkDriverRow [Sample.bytes "2"; Sample.bytes "bob"] None]
          (Some (mkDriverRow [Sample.bytes "1"; Sample.NULL] None)) true
          [CColumns; CNext; CScan; CClose]))
  /\ Result_Rows (Sample.of_rows Sample.users)
     = Some ((Some [row_map ["uid"; "name"]%string
                      (mkDriverRow [Sample.bytes "1"; Sample.NULL] None);
                    row_map ["uid"; "name"]%string
                      (mkDriverRow [Sample.bytes "2"; Sample.bytes "bob"] None)],
              None),
             moved (Sample.of_rows Sample.users)
               (mkRows ["uid"; "name"]%string [] None true
                  [CColumns; CNext; CScan; CNext; CScan; CNext])).
Proof.
  destruct (Row_closes_early_Rows_exhausts
              (Sample.of_rows Sample.users) Sample.users
              eq_refl eq_refl ltac:(discriminate))
    as (_ & HRow & _ & HRows & _).
  split.
  - apply (HRow _ _ eq_refl). split; reflexivity.
  - apply HRows. repeat constructor.
Defined.

(** C9 as stated fails when a row does not scan: on
    [Fixture.users_broken], whose second row [Scan] fails on, [Rows]
    returns the error after the second [Scan]; the third row is still
    unread and the cursor is open, so the cursor was not iterated to
    exhaustion. *)
Lemma Rows_stops_at_scan_failure :
  exists rs' : sql.Rows,
    Result_Rows (Sample.of_rows Fixture.users_broken)
    = Some ((None, Some (DriverError "bad row")),
            moved (Sample.of_rows Fixture.users_broken) rs')
    /\ rs_pending rs'
       = [mkDriverRow [Sample.bytes "2"; Sample.bytes "bob"] None]
    /\ rs_closed rs' = false
    /\ rs_calls rs' = [CColumns; CNext; CScan; CNext; CScan]
    /\ ~ (rs_pending rs' = [] /\ rs_closed rs' = true).
Proof.
  eexists. split; [reflexivity|]. simpl.
  split_and!; try reflexivity. intros [H _]. discriminate H.
Qed.

(** C10. A [Result] built from a row cursor has a nil [result] field,
    and [RowsAffected] and [LastInsertId] on it panic with a nil
    dereference; so it is for the [Result] of every query path, of a
    database, a transaction, a statement and a client, whether or not
    the query failed. *)
Theorem row_set_result_has_no_outcome (drv : Driver) (d : Database)
    (t : Transaction) (s : Statement) (c : Client) (cursor0 : option sql.Rows)
    (ctx : Ctx) (query : string) (args : list Value) (w : World) :
  let panics (r : Result) :=
    result r = None
    /\ Result_RowsAffected r = Panic NilDereference
    /\ Result_LastInsertId r = Panic NilDereference in
  panics (buildResultRows d cursor0)
  /\ panics (fst (fst (Database_QueryContext drv d ctx query args w)))
  /\ panics (fst (fst (Database_Query drv d query args w)))
  /\ panics (fst (fst (Transaction_QueryContext drv t ctx query args w)))
  /\ panics (fst (fst (Transaction_Query drv t query args w)))
  /\ panics (fst (fst (Statement_QueryContext drv s ctx args w)))
  /\ panics (fst (fst (Statement_Query drv s args w)))
  /\ match fst (fst (Client_QueryContext drv c ctx query args w)) with
     | Ret out => panics (fst out)
     | Panic _ => True
     end
  /\ match fst (fst (Client_Query drv c query args w)) with
     | Ret out => panics (fst out)
     | Panic _ => True
     end.
Proof.
  intros panics.
  assert (H : forall d0 rows0, panics (buildResultRows d0 rows0))
    by (intros; unfold panics; split_and!; reflexivity).
  unfold Client_QueryContext, Client_Query, Database_Query, Transaction_Query,
    Statement_Query, Database_QueryContext, Transaction_QueryContext,
    Statement_QueryContext.
  do 7 (split; [try apply H; destruct (go_pair _); apply H|]).
  split.
  - destruct (getr c) as [[d'|p] c']; [|exact I].
    destruct (go_pair _); apply H.
  - destruct (getr c) as [[d'|p] c']; [|exact I].
    destruct (go_pair _); apply H.
Qed.

(* ================================================================== *)
(** ** Worked examples *)
(* ================================================================== *)

(** Reads go through [getr]: [Query] runs on the database it selects. *)
Lemma Client_Query_uses_getr (drv : Driver) (c c' : Client) (d : Database)
    (query : string) (args : list Value) (w : World) :
  getr c = (Ret d, c') ->
  Client_Query drv c query args w
  = (Ret (fst (Database_Query drv d query args w)), c',
     w ++ [DBQueryContext (db d) defaultCtx query args])
  /\ GetReplica c = (Ret d, c').
Proof.
  intros Hg. unfold Client_Query, GetReplica. rewrite Hg. split; [|reflexivity].
  unfold Database_Query, Database_QueryContext.
  destruct (go_pair _); reflexivity.
Qed.

Example getr_primary_only :
  getr (mkClient Sample.p0 [] 41) = (Ret Sample.p0, mkClient Sample.p0 [] 41).
Proof. reflexivity. Qed.

Example getr_single_replica :
  getr (mkClient Sample.p0 [Sample.r1] 41)
  = (Ret Sample.r1, mkClient Sample.p0 [Sample.r1] 41).
Proof. reflexivity. Qed.

Example getr_three_fresh :
  fst (getr_times 4 Sample.three_fresh)
  = [Ret Sample.r2; Ret Sample.r3; Ret Sample.r1; Ret Sample.r2].
Proof. reflexivity. Qed.

Example SetReplica_nil :
  SetReplica Sample.healthy Sample.three_fresh None []
  = (Some ErrorClientInvalidReplica, Sample.three_fresh, []).
Proof. reflexivity. Qed.

Example SetReplica_appends :
  replicas (snd (fst (SetReplica Sample.healthy Sample.three_fresh
                        (Some (Sample.conf "10.0.0.5:3306")) [])))
  = [Sample.r1; Sample.r2; Sample.r3;
     mkDatabase 5%nat (Sample.conf "10.0.0.5:3306")].
Proof. reflexivity. Qed.

Example Exec_on_primary :
  snd (Client_Exec Sample.healthy Sample.three_fresh "DELETE FROM t" [] [])
  = [DBExecContext 0%nat Background "DELETE FROM t" []].
Proof. reflexivity. Qed.

Example Row_of_users :
  (fun m => (map_get m "uid", map_get m "name"))
    (fst (fst (Result_Row (Sample.of_rows Sample.users))))
  = (Some "1"%string, Some ""%string).
Proof. vm_compute. reflexivity. Qed.

Example Rows_after_Row_is_closed :
  fst <$> Result_Rows (snd (Result_Row (Sample.of_rows Sample.users)))
  = Some (None, Some ErrRowsClosed).
Proof. vm_compute. reflexivity. Qed.

Example RowsAffected_of_insert :
  Result_RowsAffected (buildResult Sample.p0 (Some Sample.inserted))
  = Ret (1, None).
Proof. reflexivity. Qed.

(* ================================================================== *)
(** ** Further properties of the client *)
(* ================================================================== *)

(** A selection that returns [d] and leaves the client as it was does
    so every time. *)
Lemma getr_times_fixed (c : Client) (d : Database) (k : nat) :
  getr c = (Ret d, c) -> getr_times k c = (repeat (Ret d) k, c).
Proof.
  intros Hg. induction k as [|k IH]; [reflexivity|].
  cbn [getr_times repeat]. now rewrite Hg, IH.
Qed.

Lemma Client_QueryContext_fixed (drv : Driver) (c : Client) (d : Database)
    (ctx : Ctx) (query : string) (args : list Value) (w : World) :
  getr c = (Ret d, c) ->
  Client_QueryContext drv c ctx query args w
  = (Ret (buildResultRows d
            (fst (go_pair (on_Query drv w (DBQueryContext (db d) ctx query args)))),
          snd (go_pair (on_Query drv w (DBQueryContext (db d) ctx query args)))),
     c, w ++ [DBQueryContext (db d) ctx query args]).
Proof.
  intros Hg. unfold Client_QueryContext, Database_QueryContext. rewrite Hg.
  destruct (go_pair _); reflexivity.
Qed.

(** With no replica registered, every read is served by the primary:
    any number of selections return the primary and leave the client,
    its counter included, as it was, and a query is one call on the
    primary's pool whose [Result] carries the primary's identifier. *)
Theorem reads_without_replicas (drv : Driver) (c : Client) (k : nat)
    (ctx : Ctx) (query : string) (args : list Value) (w : World) :
  replicas c = [] ->
  getr_times k c = (repeat (Ret (primary c)) k, c)
  /\ exists (cur : option sql.Rows) (err : option error),
       Client_QueryContext drv c ctx query args w
       = (Ret (mkResult (UniqId (cf (primary c))) cur None, err), c,
          w ++ [DBQueryContext (db (primary c)) ctx query args]).
Proof.
  intros Hr. pose proof (getr_no_replica c Hr) as Hg. split.
  - now apply getr_times_fixed.
  - rewrite (Client_QueryContext_fixed drv c (primary c)) by exact Hg.
    eexists _, _. reflexivity.
Qed.

Lemma reads_without_replicas_witness :
  getr_times 3 (mkClient Sample.p0 [] 7)
  = (repeat (Ret Sample.p0) 3, mkClient Sample.p0 [] 7)
  /\ exists (cur : option sql.Rows) (err : option error),
       Client_QueryContext Fixture.serving (mkClient Sample.p0 [] 7)
         Background "SELECT 1" [] []
       = (Ret (mkResult (UniqId (cf Sample.p0)) cur None, err),
          mkClient Sample.p0 [] 7,
          [DBQueryContext (db Sample.p0) Background "SELECT 1" []]).
Proof.
  apply (reads_without_replicas Fixture.serving (mkClient Sample.p0 [] 7) 3
           Background "SELECT 1" [] []).
  reflexivity.
Defined.

(** With exactly one replica, every read is served by that replica and
    never by the primary's pool; the counter does not move. *)
Theorem reads_with_one_replica (drv : Driver) (c : Client) (d : Database)
    (k : nat) (ctx : Ctx) (query : string) (args : list Value) (w : World) :
  replicas c = [d] ->
  getr_times k c = (repeat (Ret d) k, c)
  /\ exists (cur : option sql.Rows) (err : option error),
       Client_QueryContext drv c ctx query args w
       = (Ret (mkResult (UniqId (cf d)) cur None, err), c,
          w ++ [DBQueryContext (db d) ctx query args]).
Proof.
  intros Hr. pose proof (getr_one_replica c d Hr) as Hg. split.
  - now apply getr_times_fixed.
  - rewrite (Client_QueryContext_fixed drv c d) by exact Hg.
    eexists _, _. reflexivity.
Qed.

Lemma reads_with_one_replica_witness :
  getr_times 3 (mkClient Sample.p0 [Sample.r1] 7)
  = (repeat (Ret Sample.r1) 3, mkClient Sample.p0 [Sample.r1] 7)
  /\ exists (cur : option sql.Rows) (err : option error),
       Client_QueryContext Fixture.serving (mkClient Sample.p0 [Sample.r1] 7)
         Background "SELECT 1" [] []
       = (Ret (mkResult (UniqId (cf Sample.r1)) cur None, err),
          mkClient Sample.p0 [Sample.r1] 7,
          [DBQueryContext (db Sample.r1) Background "SELECT 1" []]).
Proof.
  apply (reads_with_one_replica Fixture.serving
           (mkClient Sample.p0 [Sample.r1] 7) Sample.r1 3
           Background "SELECT 1" [] []).
  reflexivity.
Defined.

(** Two reads in a row, with at least two replicas and the counter in
    [0 .. MaxInt32 - 2], are served from neighbouring positions of the
    replica sequence: the second position is the first plus one, modulo
    the replica count, and so differs from it. *)
Theorem consecutive_reads_move_on (c : Client) :
  let n := Z.of_nat (length (replicas c)) in
  2 <= n <= MaxInt32 ->
  0 <= cursor c ->
  cursor c + 2 <= MaxInt32 ->
  exists (i j : nat) (d1 d2 : Database),
    fst (getr_times 2 c) = [Ret d1; Ret d2]
    /\ replicas c !! i = Some d1
    /\ replicas c !! j = Some d2
    /\ Z.of_nat j = (Z.of_nat i + 1) mod n
    /\ i <> j.
Proof.
  intros n Hn Hc Hmax.
  destruct (getr_times_schedule 2 c Hn Hc ltac:(simpl; lia))
    as (ds & Hds & Hlen & Hnth).
  destruct ds as [|d1 [|d2 [|? ?]]]; try discriminate Hlen.
  pose proof (Hnth 0%nat ltac:(lia)) as H0.
  pose proof (Hnth 1%nat ltac:(lia)) as H1.
  fold n in H0, H1.
  change (Z.of_nat 0) with 0 in H0. change (Z.of_nat 1) with 1 in H1.
  rewrite Z.add_0_r in H0.
  change ([d1; d2] !! 0%nat) with (Some d1) in H0.
  change ([d1; d2] !! 1%nat) with (Some d2) in H1.
  pose proof (Z.mod_pos_bound (cursor c + 1) n ltac:(lia)) as Ha.
  pose proof (Z.mod_pos_bound (cursor c + 1 + 1) n ltac:(lia)) as Hb.
  assert (Hstep : (cursor c + 1 + 1) mod n = ((cursor c + 1) mod n + 1) mod n)
    by (now rewrite Z.add_mod_idemp_l by lia).
  exists (Z.to_nat ((cursor c + 1) mod n)), (Z.to_nat ((cursor c + 1 + 1) mod n)),
    d1, d2.
  split_and!.
  - rewrite Hds. reflexivity.
  - now rewrite <- H0.
  - now rewrite <- H1.
  - rewrite !Z2Nat.id by lia. exact Hstep.
  - intros Heq. apply Z2Nat.inj in Heq; [|lia|lia].
    rewrite Hstep in Heq. clear Hstep Hb H0 H1.
    generalize dependent ((cursor c + 1) mod n). intros a Ha Heq.
    destruct (Z.eq_dec (a + 1) n) as [Hlast|Hlast].
    + rewrite Hlast, Z.mod_same in Heq by lia. lia.
    + rewrite Z.mod_small in Heq by lia. lia.
Qed.

Lemma consecutive_reads_move_on_witness :
  exists (i j : nat) (d1 d2 : Database),
    fst (getr_times 2 Sample.three_fresh) = [Ret d1; Ret d2]
    /\ replicas Sample.three_fresh !! i = Some d1
    /\ replicas Sample.three_fresh !! j = Some d2
    /\ Z.of_nat j = (Z.of_nat i + 1) mod 3
    /\ i <> j.
Proof.
  apply (consecutive_reads_move_on Sample.three_fresh).
  - unfold MaxInt32. simpl. lia.
  - simpl. lia.
  - unfold MaxInt32. simpl. lia.
Defined.

Lemma getr_keeps (c : Client) :
  is_int32 (cursor c) ->
  primary (snd (getr c)) = primary c
  /\ replicas (snd (getr c)) = replicas c
  /\ is_int32 (cursor (snd (getr c)))
  /\ ((length (replicas c) < 2)%nat -> snd (getr c) = c).
Proof.
  intros Hc. unfold getr.
  destruct (Z.of_nat (length (replicas c)) <=? 0) eqn:H0;
    [split_and!; auto|].
  destruct (Z.of_nat (length (replicas c)) =? 1) eqn:H1;
    [split_and!; auto|].
  apply Z.leb_gt in H0. apply Z.eqb_neq in H1.
  assert (Hw : is_int32 (AddInt32 (cursor c) 1))
    by (unfold AddInt32, is_int32; apply wrap_int32_range).
  destruct (rem_int32 _ _); simpl; (split_and!; [reflexivity..|exact Hw|intros; exfalso; lia]).
Qed.

(** Reads never touch the primary or the replica sequence and keep the
    counter an [int32], whatever they return, panics included; with
    fewer than two replicas they leave the client as it was. *)
Theorem reads_keep_client (k : nat) (c : Client) :
  is_int32 (cursor c) ->
  primary (snd (getr_times k c)) = primary c
  /\ replicas (snd (getr_times k c)) = replicas c
  /\ is_int32 (cursor (snd (getr_times k c)))
  /\ ((length (replicas c) < 2)%nat -> snd (getr_times k c) = c).
Proof.
  revert c. induction k as [|k IH]; intros c Hc; [split_and!; auto|].
  cbn [getr_times].
  destruct (getr_keeps c Hc) as (Hp & Hr & Hi & Hsame).
  destruct (getr c) as [d c1]. simpl in Hp, Hr, Hi, Hsame.
  destruct (IH c1 Hi) as (Hp' & Hr' & Hi' & Hsame').
  destruct (getr_times k c1) as [ds c2]. simpl in *.
  split_and!; [congruence | congruence | exact Hi' |].
  intros Hlt. rewrite Hsame' by (rewrite Hr; exact Hlt). now apply Hsame.
Qed.

Lemma reads_keep_client_witness :
  primary (snd (getr_times 5 Sample.three_at_max)) = Sample.p0
  /\ replicas (snd (getr_times 5 Sample.three_at_max))
     = [Sample.r1; Sample.r2; Sample.r3]
  /\ is_int32 (cursor (snd (getr_times 5 Sample.three_at_max)))
  /\ ((3 < 2)%nat -> snd (getr_times 5 Sample.three_at_max)
                     = Sample.three_at_max).
Proof.
  apply (reads_keep_client 5 Sample.three_at_max).
  unfold is_int32. simpl. unfold MinInt32, MaxInt32. lia.
Defined.

(** Registration only ever appends: whatever [SetReplica] returns, the
    primary and the counter are kept and every replica stays at its
    position; the sequence grows by one exactly when no error is
    returned, and is unchanged otherwise. *)
Theorem SetReplica_append_only (drv : Driver) (c : Client)
    (replica : option Config) (w : World) :
  let err := fst (fst (SetReplica drv c replica w)) in
  let c' := snd (fst (SetReplica drv c replica w)) in
  primary c' = primary c
  /\ cursor c' = cursor c
  /\ (forall (i : nat) (d : Database),
        replicas c !! i = Some d -> replicas c' !! i = Some d)
  /\ match err with
     | None => exists d, replicas c' = replicas c ++ [d]
                         /\ replica = Some (cf d)
     | Some _ => c' = c
     end.
Proof.
  unfold SetReplica.
  destruct replica as [conf|]; [|simpl; split_and!; auto].
  assert (Hcf : forall d w', NewDatabaseWithConfig drv conf w = (inl d, w') ->
                             cf d = conf).
  { unfold NewDatabaseWithConfig. intros d w'.
    destruct (on_Open _ _ _ _); [|discriminate].
    destruct (PingTest conf); [destruct (on_Ping _ _ _ _); [discriminate|]|];
      intros [= <- _]; reflexivity. }
  destruct (NewDatabaseWithConfig drv conf w) as [[d|e] w'] eqn:Hnew; simpl.
  - split_and!; [reflexivity | reflexivity | |].
    + intros i d0 Hi. now apply lookup_app_l_Some.
    + exists d. split; [reflexivity|]. now rewrite (Hcf d w' eq_refl).
  - split_and!; auto.
Qed.

(** The first replica registered takes the reads over from the primary:
    after a successful [SetReplica] on a client without replicas, every
    read selects the new database, opened on the given configuration. *)
Theorem first_replica_takes_reads (drv : Driver) (c c' : Client)
    (conf : Config) (w w' : World) (k : nat) :
  replicas c = [] ->
  SetReplica drv c (Some conf) w = (None, c', w') ->
  exists d : Database,
    replicas c' = [d]
    /\ cf d = conf
    /\ on_Open drv w "mysql" (FormatDSN drv (Config_driver conf)) = inl (db d)
    /\ getr_times k c' = (repeat (Ret d) k, c').
Proof.
  intros Hr Hset. unfold SetReplica in Hset.
  destruct (NewDatabaseWithConfig drv conf w) as [[d|e] w1] eqn:Hnew;
    [|discriminate Hset].
  injection Hset as <- <-. rewrite Hr. simpl.
  exists d. unfold NewDatabaseWithConfig in Hnew.
  destruct (on_Open _ _ _ _) as [h|]; [|discriminate Hnew].
  assert (Hd : d = mkDatabase h conf).
  { destruct (PingTest conf); [destruct (on_Ping _ _ _ _); [discriminate|]|];
      now injection Hnew as <- _. }
  subst d. split_and!; try reflexivity.
  now apply getr_times_fixed.
Qed.

Lemma first_replica_takes_reads_witness :
  exists d : Database,
    replicas (mkClient Sample.p0 [mkDatabase 5%nat (Sample.conf "10.0.0.5:3306")] 0)
    = [d]
    /\ cf d = Sample.conf "10.0.0.5:3306"
    /\ on_Open Sample.healthy [] "mysql"
         (FormatDSN Sample.healthy
            (Config_driver (Sample.conf "10.0.0.5:3306")))
       = inl (db d)
    /\ getr_times 4
         (mkClient Sample.p0 [mkDatabase 5%nat (Sample.conf "10.0.0.5:3306")] 0)
       = (repeat (Ret d) 4,
          mkClient Sample.p0 [mkDatabase 5%nat (Sample.conf "10.0.0.5:3306")] 0).
Proof.
  eapply (first_replica_takes_reads Sample.healthy (mkClient Sample.p0 [] 0) _
            (Sample.conf "10.0.0.5:3306") [] _ 4).
  - reflexivity.
  - reflexivity.
Defined.

(** [Close] closes the primary first and then every replica, in the
    order of registration, each exactly once and whatever the closes
    answer. *)
Theorem Client_Close_closes_all (on_Close : World -> DB -> option error)
    (c : Client) (w : World) :
  Client_Close on_Close c w
  = w ++ map (fun d => DBClose (db d)) (primary c :: replicas c).
Proof.
  unfold Client_Close, Database_Close. simpl.
  assert (Hfold : forall rs w0,
            fold_left (fun w1 r => w1 ++ [DBClose (db r)]) rs w0
            = w0 ++ map (fun d => DBClose (db d)) rs).
  { induction rs as [|r rs IH]; intros w0; simpl.
    - now rewrite app_nil_r.
    - rewrite IH. now rewrite <- app_assoc. }
  destruct (replicas c) as [|r rs] eqn:Hr.
  - reflexivity.
  - replace (0 <? Z.of_nat (length (r :: rs))) with true
      by (symmetry; apply Z.ltb_lt; simpl; lia).
    rewrite Hfold. now rewrite <- app_assoc.
Qed.

(* ================================================================== *)
(** ** Opening a database *)
(* ================================================================== *)

(** [NewDatabaseWithConfig] neither leaks a pool nor returns a closed
    one. It first calls [sql.Open]. If that fails, nothing else is
    called and the error is returned. Otherwise the three pool settings
    of the configuration are applied, in order; the start-up ping is
    made exactly when [PingTest] is set; a failed ping is followed by
    the close of the pool and returned; on success the database holds
    the opened pool and the configuration, and the pool was not
    closed. *)
Theorem NewDatabaseWithConfig_no_leak (drv : Driver) (conf : Config)
    (w : World) :
  let dsn := FormatDSN drv (Config_driver conf) in
  let ctx := WithTimeout defaultCtx (driver.Timeout (Config_driver conf)) in
  let settings h := [SetConnMaxLifetime h (MaxLifetime conf);
                     SetMaxOpenConns h (MaxOpenConns conf);
                     SetMaxIdleConns h (MaxIdleConns conf)] in
  match on_Open drv w "mysql" dsn with
  | inr e =>
      NewDatabaseWithConfig drv conf w = (inr e, w ++ [Open "mysql" dsn])
  | inl h =>
      exists tail : list Call,
        snd (NewDatabaseWithConfig drv conf w)
        = w ++ Open "mysql" dsn :: settings h ++ tail
        /\ (In (PingContext h ctx) tail <-> PingTest conf = true)
        /\ match fst (NewDatabaseWithConfig drv conf w) with
           | inl d => d = mkDatabase h conf /\ ~ In (DBClose h) tail
           | inr e =>
               PingTest conf = true
               /\ on_Ping drv (w ++ Open "mysql" dsn :: settings h) h ctx
                  = Some e
               /\ tail = [PingContext h ctx; DBClose h]
           end
  end.
Proof.
  intros dsn ctx settings. unfold NewDatabaseWithConfig. fold dsn ctx.
  destruct (on_Open drv w "mysql" dsn) as [h|e]; [|reflexivity].
  replace ((w ++ [Open "mysql" dsn]) ++
             [SetConnMaxLifetime h (MaxLifetime conf);
              SetMaxOpenConns h (MaxOpenConns conf);
              SetMaxIdleConns h (MaxIdleConns conf)])
    with (w ++ Open "mysql" dsn :: settings h)
    by (now rewrite <- app_assoc).
  destruct (PingTest conf).
  - destruct (on_Ping drv _ h ctx) as [e|] eqn:Hping; simpl.
    + exists [PingContext h ctx; DBClose h]. split_and!.
      * rewrite <- !app_assoc. reflexivity.
      * split; [reflexivity|]. intros _. now left.
      * reflexivity.
      * reflexivity.
      * reflexivity.
    + exists [PingContext h ctx]. split_and!.
      * rewrite <- !app_assoc. reflexivity.
      * split; [reflexivity|]. intros _. now left.
      * reflexivity.
      * intros [H|[]]. discriminate H.
  - exists []. simpl. split_and!.
    + reflexivity.
    + split; [intros []|discriminate].
    + reflexivity.
    + intros [].
Qed.

(** [NewDefaultConfig] drops its [ping] argument: the configuration it
    returns has [PingTest] unset whatever is passed, so opening a
    database on it never pings, and fails only when [sql.Open] does. *)
Theorem NewDefaultConfig_never_pings (drv : Driver)
    (addr dbname user passwd : string) (ping : bool) (w : World) :
  let conf := NewDefaultConfig addr dbname user passwd ping in
  let dsn := FormatDSN drv (Config_driver conf) in
  conf = NewDefaultConfig addr dbname user passwd false
  /\ NewDatabaseWithConfig drv conf w
     = match on_Open drv w "mysql" dsn with
       | inr e => (inr e, w ++ [Open "mysql" dsn])
       | inl h =>
           (inl (mkDatabase h conf),
            w ++ [Open "mysql" dsn;
                  SetConnMaxLifetime h DefaultMaxLifetime;
                  SetMaxOpenConns h DefaultMaxOpenConns;
                  SetMaxIdleConns h DefaultMaxIdleConns])
       end.
Proof.
  intros conf dsn. split; [reflexivity|].
  unfold NewDatabaseWithConfig. fold dsn.
  destruct (on_Open drv w "mysql" dsn); [|reflexivity].
  simpl. now rewrite <- app_assoc.
Qed.

Lemma apply_options_last (opts : list DatabaseOption) (o : DatabaseOption)
    (conf : Config) :
  apply_options (opts ++ [o]) conf = o (apply_options opts conf).
Proof. unfold apply_options. now rewrite fold_left_app. Qed.

Lemma last_written_snoc {A : Type} (pick : OptionCall -> option A)
    (calls : list OptionCall) (o : OptionCall) (d : A) :
  last_written pick (calls ++ [o]) d
  = match pick o with
    | Some v => v
    | None => last_written pick calls d
    end.
Proof.
  unfold last_written. rewrite omap_app. simpl.
  destruct (pick o) as [v|]; simpl.
  - now rewrite last_snoc.
  - now rewrite app_nil_r.
Qed.

(** Options are applied one after the other, in the order of the
    argument list, each on the configuration the ones before it left:
    after any list of the package's options every field holds the value
    of the last option in the list that sets it, and the value it had
    before when none does; the endpoint and the credentials are the
    ones given. *)
Theorem options_apply_in_order (calls : list OptionCall) (conf : Config) :
  let conf' := apply_options (map option_of calls) conf in
  let d := Config_driver conf in
  let d' := Config_driver conf' in
  MaxLifetime conf' = last_written lifetime_of calls (MaxLifetime conf)
  /\ MaxOpenConns conf' = last_written open_conns_of calls (MaxOpenConns conf)
  /\ MaxIdleConns conf' = last_written idle_conns_of calls (MaxIdleConns conf)
  /\ driver.Timeout d' = last_written dial_timeout_of calls (driver.Timeout d)
  /\ driver.ReadTimeout d'
     = last_written read_timeout_of calls (driver.ReadTimeout d)
  /\ driver.WriteTimeout d'
     = last_written write_timeout_of calls (driver.WriteTimeout d)
  /\ PingTest conf' = last_written ping_test_of calls (PingTest conf)
  /\ driver.Net d' = driver.Net d
  /\ driver.Addr d' = driver.Addr d
  /\ driver.DBName d' = driver.DBName d
  /\ driver.User d' = driver.User d
  /\ driver.Passwd d' = driver.Passwd d.
Proof.
  induction calls as [|o calls IH] using rev_ind; [split_and!; reflexivity|].
  cbv zeta in IH |- *.
  destruct IH as (H1 & H2 & H3 & H4 & H5 & H6 & H7 & H8 & H9 & H10 & H11 & H12).
  rewrite map_app. cbn [map]. rewrite apply_options_last.
  rewrite !last_written_snoc.
  destruct o; simpl; split_and!; assumption || reflexivity.
Qed.

Example options_apply_in_order_sample :
  let conf := apply_options
                (map option_of [MaxOpenConnsOf 8; DialTimeoutOf 5;
                                MaxOpenConnsOf 9; PingTestOf true])
                (NewDefaultConfig "db:3306" "shop" "u" "p" false) in
  (MaxOpenConns conf, driver.Timeout (Config_driver conf), PingTest conf,
   MaxIdleConns conf)
  = (9, 5, true, DefaultMaxIdleConns).
Proof. reflexivity. Qed.

(** A provided option leaves the endpoint and the credentials alone. *)
Lemma Provided_keeps_endpoint (o : DatabaseOption) (conf : Config) :
  Provided o ->
  let d := Config_driver conf in
  let d' := Config_driver (o conf) in
  driver.Net d' = driver.Net d /\ driver.Addr d' = driver.Addr d
  /\ driver.DBName d' = driver.DBName d /\ driver.User d' = driver.User d
  /\ driver.Passwd d' = driver.Passwd d.
Proof. intros [t|n|n|t|t|t|b]; simpl; split_and!; reflexivity. Qed.

Lemma apply_options_keeps_endpoint (opts : list DatabaseOption) :
  Forall Provided opts ->
  forall conf : Config,
    let d := Config_driver conf in
    let d' := Config_driver (apply_options opts conf) in
    driver.Net d' = driver.Net d /\ driver.Addr d' = driver.Addr d
    /\ driver.DBName d' = driver.DBName d /\ driver.User d' = driver.User d
    /\ driver.Passwd d' = driver.Passwd d.
Proof.
  induction 1 as [|o opts Ho _ IH]; intros conf; [split_and!; reflexivity|].
  destruct (IH (o conf)) as (H1 & H2 & H3 & H4 & H5).
  destruct (Provided_keeps_endpoint o conf Ho) as (G1 & G2 & G3 & G4 & G5).
  simpl in *. unfold apply_options in *. simpl.
  split_and!; congruence.
Qed.

(** A database that was opened holds the configuration it was opened
    on. *)
Lemma NewDatabaseWithConfig_keeps_config (drv : Driver) (conf : Config)
    (w w' : World) (d : Database) :
  NewDatabaseWithConfig drv conf w = (inl d, w') -> cf d = conf.
Proof.
  unfold NewDatabaseWithConfig.
  destruct (on_Open _ _ _ _); [|discriminate].
  destruct (PingTest conf); [destruct (on_Ping _ _ _ _); [discriminate|]|];
    intros [= <- _]; reflexivity.
Qed.

(** Whatever provided options are passed, a database opened by
    [NewDatabase] is identified as [tcp://addr/dbname], and so is every
    [Result] it returns. *)
Theorem NewDatabase_identifier (drv : Driver)
    (addr dbname user passwd : string) (opts : list DatabaseOption)
    (w w' : World) (d : Database) :
  Forall Provided opts ->
  NewDatabase drv addr dbname user passwd opts w = (inl d, w') ->
  UniqId (cf d) = ("tcp://" ++ addr ++ "/" ++ dbname)%string
  /\ forall (ctx : Ctx) (query : string) (args : list Value) (w1 : World),
       hit (fst (fst (Database_QueryContext drv d ctx query args w1)))
       = ("tcp://" ++ addr ++ "/" ++ dbname)%string
       /\ hit (fst (fst (Database_ExecContext drv d ctx query args w1)))
          = ("tcp://" ++ addr ++ "/" ++ dbname)%string.
Proof.
  intros Hopts Hnew. unfold NewDatabase in Hnew.
  set (conf := apply_options opts _) in Hnew.
  assert (Hcf : cf d = conf)
    by exact (NewDatabaseWithConfig_keeps_config drv conf w w' d Hnew).
  assert (Hid : UniqId (cf d) = ("tcp://" ++ addr ++ "/" ++ dbname)%string).
  { rewrite Hcf. unfold UniqId, conf.
    destruct (apply_options_keeps_endpoint opts Hopts
                (NewDefaultConfig addr dbname user passwd false))
      as (-> & -> & -> & _).
    reflexivity. }
  split; [exact Hid|]. intros ctx query args w1.
  unfold Database_QueryContext, Database_ExecContext.
  split; destruct (go_pair _); exact Hid.
Qed.

Lemma NewDatabase_identifier_witness :
  UniqId (cf (mkDatabase 5%nat
                (apply_options [WithMaxOpenConns 8; WithDialTimeout 5]
                   (NewDefaultConfig "db:3306" "shop" "u" "p" false))))
  = "tcp://db:3306/shop"%string
  /\ forall (ctx : Ctx) (query : string) (args : list Value) (w1 : World),
       hit (fst (fst (Database_QueryContext Sample.healthy
                        (mkDatabase 5%nat
                           (apply_options [WithMaxOpenConns 8; WithDialTimeout 5]
                              (NewDefaultConfig "db:3306" "shop" "u" "p" false)))
                        ctx query args w1)))
       = "tcp://db:3306/shop"%string
       /\ hit (fst (fst (Database_ExecContext Sample.healthy
                           (mkDatabase 5%nat
                              (apply_options
                                 [WithMaxOpenConns 8; WithDialTimeout 5]
                                 (NewDefaultConfig "db:3306" "shop" "u" "p" false)))
                           ctx query args w1)))
          = "tcp://db:3306/shop"%string.
Proof.
  eapply (NewDatabase_identifier Sample.healthy "db:3306" "shop" "u" "p"
            [WithMaxOpenConns 8; WithDialTimeout 5] [] _ _).
  - repeat constructor.
  - reflexivity.
Defined.

(* ================================================================== *)
(** ** Further properties of [Row] and [Rows] *)
(* ================================================================== *)

Lemma scans_iff_no_failure (n : nat) (row : DriverRow) :
  scans n row <-> scan_failure n row = None.
Proof.
  unfold scans, scan_failure. destruct (scan_err row) as [e|].
  - split; [intros [H _]; discriminate H | discriminate].
  - destruct (Nat.eqb (length (cells row)) n) eqn:Hn.
    + apply Nat.eqb_eq in Hn. tauto.
    + apply Nat.eqb_neq in Hn. split; [intros [_ H]; congruence | discriminate].
Qed.

(** On a closed cursor both calls fail at [Columns]. *)
Lemma Result_closed (r : Result) (rs : sql.Rows) :
  rows r = Some rs ->
  rs_closed rs = true ->
  Result_Row r = ((None, Some ErrRowsClosed), moved r (called CColumns rs))
  /\ Result_Rows r
     = Some ((None, Some ErrRowsClosed), moved r (called CColumns rs)).
Proof.
  intros Hrows Hclosed. unfold Result_Row, Result_Rows, Columns.
  rewrite Hrows, Hclosed. split; reflexivity.
Qed.

(** An empty result set is not an error and not an empty container: on
    an open cursor with columns and no row, [Row] returns the nil map
    and [Rows] the nil slice, both without error; and [Rows], when it
    returns no error, returns nil exactly when the cursor had no row. *)
Theorem empty_set_is_nil (r : Result) (rs : sql.Rows) :
  rows r = Some rs ->
  rs_closed rs = false ->
  rs_columns rs <> [] ->
  (rs_pending rs = [] ->
   fst (Result_Row r) = (None, None)
   /\ fst <$> Result_Rows r = Some (None, None))
  /\ (forall (ms : slice (gmap string string)) (r' : Result),
        Result_Rows r = Some ((ms, None), r') ->
        (ms = None <-> rs_pending rs = [])).
Proof.
  intros Hrows Hopen Hcols.
  pose proof (Result_Rows_open r rs Hrows Hopen Hcols) as HRows.
  destruct (Rows_loop_spec (rs_columns rs) (length (rs_columns rs))
              (S (length (rs_pending rs))) (called CColumns rs) None
              Hopen ltac:(simpl; lia))
    as (out & rs' & Hrun & _ & _ & Hdone & Hall).
  rewrite Hrun in HRows. simpl in Hdone, Hall. split.
  - intros Hempty. split.
    + rewrite (Result_Row_open r rs Hrows Hopen Hcols), Hempty. reflexivity.
    + rewrite HRows. rewrite Hempty in Hall.
      destruct out as [ms err]. simpl in Hdone, Hall.
      specialize (Hall ltac:(constructor)). subst err.
      destruct (Hdone eq_refl) as (_ & _ & _ & _ & Hnil).
      now rewrite (Hnil eq_refl Hempty).
  - intros ms r' Heq. rewrite HRows in Heq. injection Heq as -> _.
    destruct (Hdone eq_refl) as (_ & _ & _ & Helems & Hnil).
    simpl in Helems, Hnil.
    split.
    + intros ->. simpl in Helems. symmetry in Helems.
      now apply map_eq_nil in Helems.
    + intros Hempty. now apply Hnil.
Qed.

Lemma empty_set_is_nil_witness :
  (rs_pending Fixture.users_empty = [] ->
   fst (Result_Row (Sample.of_rows Fixture.users_empty)) = (None, None)
   /\ fst <$> Result_Rows (Sample.of_rows Fixture.users_empty)
      = Some (None, None))
  /\ (forall (ms : slice (gmap string string)) (r' : Result),
        Result_Rows (Sample.of_rows Fixture.users_empty)
        = Some ((ms, None), r') ->
        (ms = None <-> rs_pending Fixture.users_empty = [])).
Proof.
  apply (empty_set_is_nil (Sample.of_rows Fixture.users_empty)
           Fixture.users_empty).
  - reflexivity.
  - reflexivity.
  - discriminate.
Defined.

(** A row-set [Result] is single use: once [Row] or [Rows] has
    returned without error on an open cursor with columns, the cursor
    is closed, and a further [Row] or [Rows] returns the library's
    "rows are closed" error and no data. *)
Theorem Result_single_use (r : Result) (rs : sql.Rows) :
  rows r = Some rs ->
  rs_closed rs = false ->
  rs_columns rs <> [] ->
  (forall (m : gomap) (r' : Result),
     Result_Row r = ((m, None), r') ->
     fst (Result_Row r') = (None, Some ErrRowsClosed)
     /\ fst <$> Result_Rows r' = Some (None, Some ErrRowsClosed))
  /\ (forall (ms : slice (gmap string string)) (r' : Result),
        Result_Rows r = Some ((ms, None), r') ->
        fst (Result_Row r') = (None, Some ErrRowsClosed)
        /\ fst <$> Result_Rows r' = Some (None, Some ErrRowsClosed)).
Proof.
  intros Hrows Hopen Hcols.
  assert (Hclosed : forall rs', rs_closed rs' = true ->
            fst (Result_Row (moved r rs')) = (None, Some ErrRowsClosed)
            /\ fst <$> Result_Rows (moved r rs')
               = Some (None, Some ErrRowsClosed)).
  { intros rs' Hc.
    destruct (Result_closed (moved r rs') rs' eq_refl Hc) as [-> ->].
    split; reflexivity. }
  split.
  - intros m r'. rewrite (Result_Row_open r rs Hrows Hopen Hcols).
    destruct (rs_pending rs) as [|row rest].
    { intros [= _ <-]. now apply Hclosed. }
    destruct (scan_err row); [discriminate|].
    destruct (Nat.eqb _ _); [|discriminate].
    intros [= _ <-]. now apply Hclosed.
  - intros ms r'. rewrite (Result_Rows_open r rs Hrows Hopen Hcols).
    destruct (Rows_loop_spec (rs_columns rs) (length (rs_columns rs))
                (S (length (rs_pending rs))) (called CColumns rs) None
                Hopen ltac:(simpl; lia))
      as (out & rs' & Hrun & _ & _ & Hdone & _).
    rewrite Hrun. intros [= -> <-].
    destruct (Hdone eq_refl) as (_ & Hc & _). now apply Hclosed.
Qed.

Lemma Result_single_use_witness :
  (forall (m : gomap) (r' : Result),
     Result_Row (Sample.of_rows Sample.users) = ((m, None), r') ->
     fst (Result_Row r') = (None, Some ErrRowsClosed)
     /\ fst <$> Result_Rows r' = Some (None, Some ErrRowsClosed))
  /\ (forall (ms : slice (gmap string string)) (r' : Result),
        Result_Rows (Sample.of_rows Sample.users) = Some ((ms, None), r') ->
        fst (Result_Row r') = (None, Some ErrRowsClosed)
        /\ fst <$> Result_Rows r' = Some (None, Some ErrRowsClosed)).
Proof.
  apply (Result_single_use (Sample.of_rows Sample.users) Sample.users).
  - reflexivity.
  - reflexivity.
  - discriminate.
Defined.

(** [Row] returns the first element of what [Rows] returns: on an open
    cursor with columns whose rows all scan, the mapping of [Row] is the
    head of the sequence of [Rows], and nil when that sequence is. *)
Theorem Row_is_first_of_Rows (r : Result) (rs : sql.Rows) :
  rows r = Some rs ->
  rs_closed rs = false ->
  rs_columns rs <> [] ->
  Forall (scans (length (rs_columns rs))) (rs_pending rs) ->
  exists (ms : slice (gmap string string)) (r' : Result),
    Result_Rows r = Some ((ms, None), r')
    /\ fst (Result_Row r) = (head (elems ms), None).
Proof.
  intros Hrows Hopen Hcols Hall.
  rewrite (Result_Rows_open r rs Hrows Hopen Hcols).
  destruct (Rows_loop_spec (rs_columns rs) (length (rs_columns rs))
              (S (length (rs_pending rs))) (called CColumns rs) None
              Hopen ltac:(simpl; lia))
    as (out & rs' & Hrun & _ & _ & Hdone & Hok).
  rewrite Hrun. destruct out as [ms err]. simpl in Hdone, Hok.
  rewrite (Hok Hall) in *.
  destruct (Hdone eq_refl) as (_ & _ & _ & Helems & _). simpl in Helems.
  exists ms, (moved r rs'). split; [reflexivity|].
  rewrite Helems, (Result_Row_open r rs Hrows Hopen Hcols).
  destruct (rs_pending rs) as [|row rest]; [reflexivity|].
  inversion Hall as [|? ? [Herr Hlen] _]. subst.
  rewrite Herr, Hlen, Nat.eqb_refl. reflexivity.
Qed.

Lemma Row_is_first_of_Rows_witness :
  exists (ms : slice (gmap string string)) (r' : Result),
    Result_Rows (Sample.of_rows Sample.users) = Some ((ms, None), r')
    /\ fst (Result_Row (Sample.of_rows Sample.users))
       = (head (elems ms), None).
Proof.
  apply (Row_is_first_of_Rows (Sample.of_rows Sample.users) Sample.users).
  - reflexivity.
  - reflexivity.
  - discriminate.
  - repeat constructor.
Defined.

(** The loop of [Rows] on an open cursor whose rows [good] scan and
    whose next row does not. *)
Lemma Rows_loop_scan_failure (columns : list string) (n : nat)
    (bad : DriverRow) (rest : list DriverRow) (e : error) :
  scan_failure n bad = Some e ->
  forall (good : list DriverRow) (fuel : nat) (rs : sql.Rows)
         (acc : slice (gmap string string)),
    Forall (scans n) good ->
    rs_closed rs = false ->
    rs_pending rs = good ++ bad :: rest ->
    (length good < fuel)%nat ->
    Rows_loop fuel columns n rs acc
    = Some ((None, Some e),
            mkRows (rs_columns rs) rest (Some bad) false
              (rs_calls rs
                 ++ flat_map (fun _ => [CNext; CScan]) good ++ [CNext; CScan])).
Proof.
  intros Hbad. induction good as [|row good IH];
    intros fuel rs acc Hgood Hopen Hpending Hfuel;
    (destruct fuel as [|fuel]; [lia|]);
    destruct rs as [cols pending last closed calls];
    simpl in Hopen, Hpending; subst closed pending;
    cbn [Rows_loop]; unfold Next, Scan, called; simpl.
  - unfold scan_failure in Hbad.
    destruct (scan_err bad) as [e0|].
    + injection Hbad as ->. now rewrite <- app_assoc.
    + destruct (Nat.eqb (length (cells bad)) n); [discriminate|].
      injection Hbad as <-. now rewrite <- app_assoc.
  - inversion Hgood as [|? ? [Herr Hlen] Hgood']. subst.
    rewrite Herr, Nat.eqb_refl.
    erewrite IH;
      [simpl; now rewrite <- !app_assoc | exact Hgood' | reflexivity
      | reflexivity | simpl in Hfuel; lia].
Qed.

(** A row that does not scan ends [Rows] at once: the error of [Scan]
    is returned with a nil sequence, the mappings of the rows before it
    are dropped, the rows after it stay unread, and the cursor is left
    open, as [Close] is never called. [Row] does the same when the
    first row does not scan. *)
Theorem scan_failure_ends_materialisation (r : Result) (rs : sql.Rows)
    (good rest : list DriverRow) (bad : DriverRow) (e : error) :
  rows r = Some rs ->
  rs_closed rs = false ->
  rs_columns rs <> [] ->
  rs_pending rs = good ++ bad :: rest ->
  Forall (scans (length (rs_columns rs))) good ->
  scan_failure (length (rs_columns rs)) bad = Some e ->
  (exists rs' : sql.Rows,
     Result_Rows r = Some ((None, Some e), moved r rs')
     /\ rs_pending rs' = rest
     /\ rs_closed rs' = false
     /\ rs_calls rs'
        = rs_calls rs ++ CColumns
            :: flat_map (fun _ => [CNext; CScan]) good ++ [CNext; CScan])
  /\ (good = [] ->
      exists rs' : sql.Rows,
        Result_Row r = ((None, Some e), moved r rs')
        /\ rs_pending rs' = rest
        /\ rs_closed rs' = false
        /\ rs_calls rs' = rs_calls rs ++ [CColumns; CNext; CScan]).
Proof.
  intros Hrows Hopen Hcols Hpending Hgood Hbad. split.
  - rewrite (Result_Rows_open r rs Hrows Hopen Hcols).
    rewrite (Rows_loop_scan_failure (rs_columns rs) (length (rs_columns rs))
               bad rest e Hbad good _ (called CColumns rs) None Hgood Hopen
               Hpending)
      by (rewrite Hpending, length_app; simpl; lia).
    eexists. split; [reflexivity|]. simpl. split_and!; try reflexivity.
    now rewrite <- app_assoc.
  - intros ->. simpl in Hpending.
    rewrite (Result_Row_open r rs Hrows Hopen Hcols), Hpending.
    unfold scan_failure in Hbad.
    destruct (scan_err bad) as [e0|].
    + injection Hbad as ->. eexists. split; [reflexivity|].
      split_and!; reflexivity.
    + destruct (Nat.eqb _ _); [discriminate|]. injection Hbad as <-.
      eexists. split; [reflexivity|]. split_and!; reflexivity.
Qed.

Lemma scan_failure_ends_materialisation_witness :
  (exists rs' : sql.Rows,
     Result_Rows (Sample.of_rows Fixture.users_broken)
     = Some ((None, Some (DriverError "bad row")),
             moved (Sample.of_rows Fixture.users_broken) rs')
     /\ rs_pending rs'
        = [mkDriverRow [Sample.bytes "2"; Sample.bytes "bob"] None]
     /\ rs_closed rs' = false
     /\ rs_calls rs' = [CColumns; CNext; CScan; CNext; CScan])
  /\ ([mkDriverRow [Sample.bytes "1"; Sample.NULL] None] = [] ->
      exists rs' : sql.Rows,
        Result_Row (Sample.of_rows Fixture.users_broken)
        = ((None, Some (DriverError "bad row")),
           moved (Sample.of_rows Fixture.users_broken) rs')
        /\ rs_pending rs'
           = [mkDriverRow [Sample.bytes "2"; Sample.bytes "bob"] None]
        /\ rs_closed rs' = false
        /\ rs_calls rs' = [CColumns; CNext; CScan]).
Proof.
  apply (scan_failure_ends_materialisation
           (Sample.of_rows Fixture.users_broken) Fixture.users_broken
           [mkDriverRow [Sample.bytes "1"; Sample.NULL] None]
           [mkDriverRow [Sample.bytes "2"; Sample.bytes "bob"] None]
           Fixture.broken (DriverError "bad row")).
  - reflexivity.
  - reflexivity.
  - discriminate.
  - reflexivity.
  - repeat constructor.
  - reflexivity.
Defined.

(** The keys the column loop writes are the names of the columns it
    walks. *)
Lemma fill_row_dom (columns : list string) :
  forall (values : list RawBytes) (i : nat) (row : gmap string string),
    (i + length values <= length columns)%nat ->
    dom (fill_row columns i values row)
    = dom row ∪ list_to_set (take (length values) (drop i columns)).
Proof.
  induction values as [|value rest IH]; intros i row Hlen.
  - cbn [fill_row length]. rewrite take_0, list_to_set_nil.
    now rewrite (right_id_L ∅ (∪)).
  - cbn [fill_row length]. simpl in Hlen.
    destruct (lookup_lt_is_Some_2 columns i ltac:(lia)) as [name Hname].
    rewrite IH by lia. rewrite dom_insert_L.
    rewrite (drop_S columns name i Hname). cbn [take list_to_set].
    rewrite (nth_lookup_Some _ _ ""%string _ Hname).
    rewrite (comm_L (∪) {[name]} (dom row)). now rewrite (assoc_L (∪)).
Qed.

(** The mapping [Row] returns has exactly the column names as keys: it
    is returned without error, and it has one entry per column when
    the names are distinct, fewer when a name repeats. *)
Theorem Row_keys_are_columns (r r' : Result) (rs : sql.Rows)
    (m : gmap string string) (err : option error) :
  rows r = Some rs ->
  Result_Row r = ((Some m, err), r') ->
  err = None
  /\ dom m = list_to_set (rs_columns rs)
  /\ (size m <= length (rs_columns rs))%nat
  /\ (NoDup (rs_columns rs) -> size m = length (rs_columns rs)).
Proof.
  intros Hrows Hrow.
  destruct (rs_closed rs) eqn:Hopen.
  { destruct (Result_closed r rs Hrows Hopen) as [Hc _].
    rewrite Hc in Hrow. discriminate Hrow. }
  destruct (rs_columns rs) as [|c0 cs] eqn:Hcols.
  { unfold Result_Row, Columns in Hrow.
    rewrite Hrows, Hopen, Hcols in Hrow. discriminate Hrow. }
  rewrite (Result_Row_open r rs Hrows Hopen) in Hrow
    by (rewrite Hcols; discriminate).
  destruct (rs_pending rs) as [|row rest]; [discriminate Hrow|].
  destruct (scan_err row); [discriminate Hrow|].
  destruct (Nat.eqb _ _) eqn:Hlen; [|discriminate Hrow].
  apply Nat.eqb_eq in Hlen. injection Hrow as <- <- _.
  assert (Hdom : dom (row_map (rs_columns rs) row)
                 = list_to_set (rs_columns rs) :> gset string).
  { unfold row_map. rewrite fill_row_dom by (rewrite Hlen; simpl; lia).
    rewrite drop_0, Hlen, firstn_all, dom_empty_L.
    now rewrite (left_id_L ∅ (∪)). }
  rewrite <- Hcols. split_and!.
  - reflexivity.
  - exact Hdom.
  - rewrite <- size_dom, Hdom.
    clear. induction (rs_columns rs) as [|c l IH].
    + rewrite list_to_set_nil, size_empty. reflexivity.
    + rewrite list_to_set_cons, size_union_alt, size_singleton.
      pose proof (subseteq_size
                    (list_to_set l ∖ {[c]}) (list_to_set l : gset string)
                    (subseteq_difference_l _ _ _ (reflexivity _))).
      simpl. lia.
  - intros Hnodup. rewrite <- size_dom, Hdom.
    now apply size_list_to_set.
Qed.

Lemma Row_keys_are_columns_witness :
  (None : option error) = None
  /\ dom (row_map ["uid"; "name"]%string
            (mkDriverRow [Sample.bytes "1"; Sample.NULL] None))
     = list_to_set (rs_columns Sample.users)
  /\ (size (row_map ["uid"; "name"]%string
              (mkDriverRow [Sample.bytes "1"; Sample.NULL] None))
      <= length (rs_columns Sample.users))%nat
  /\ (NoDup (rs_columns Sample.users) ->
      size (row_map ["uid"; "name"]%string
              (mkDriverRow [Sample.bytes "1"; Sample.NULL] None))
      = length (rs_columns Sample.users)).
Proof.
  eapply (Row_keys_are_columns (Sample.of_rows Sample.users) _ Sample.users).
  - reflexivity.
  - reflexivity.
Defined.

(* ================================================================== *)
(** ** Results of calls that failed *)
(* ================================================================== *)

(** The [Result] of [ExecContext] is returned with the error, and its
    outcome is nil exactly when there is an error: after a successful
    mutation [RowsAffected] and [LastInsertId] return what the library
    reported; after a failed one they panic on the nil outcome. In both
    cases [Row] returns nil and no error. *)
Theorem outcome_of_Exec (drv : Driver) (d : Database) (ctx : Ctx)
    (query : string) (args : list Value) (w : World) :
  let r := fst (fst (Database_ExecContext drv d ctx query args w)) in
  let err := snd (fst (Database_ExecContext drv d ctx query args w)) in
  match on_Exec drv w (DBExecContext (db d) ctx query args) with
  | inl res =>
      err = None
      /\ Result_RowsAffected r = Ret (res_RowsAffected res)
      /\ Result_LastInsertId r = Ret (res_LastInsertId res)
  | inr e =>
      err = Some e
      /\ Result_RowsAffected r = Panic NilDereference
      /\ Result_LastInsertId r = Panic NilDereference
  end
  /\ Result_Row r = ((None, None), r)
  /\ hit r = UniqId (cf d).
Proof.
  unfold Database_ExecContext.
  destruct (on_Exec _ _ _); simpl; split_and!; reflexivity.
Qed.

(** A failed query still returns a [Result], tagged with the database,
    next to the error; read without looking at the error it behaves as
    an empty one: [Row] and [Rows] return nil and no error. *)
Theorem failed_Query_reads_as_empty (drv : Driver) (d : Database) (ctx : Ctx)
    (query : string) (args : list Value) (w : World) (e : error) :
  on_Query drv w (DBQueryContext (db d) ctx query args) = inr e ->
  let r := fst (fst (Database_QueryContext drv d ctx query args w)) in
  snd (fst (Database_QueryContext drv d ctx query args w)) = Some e
  /\ hit r = UniqId (cf d)
  /\ Result_Row r = ((None, None), r)
  /\ Result_Rows r = Some ((None, None), r).
Proof.
  intros Hq. unfold Database_QueryContext. rewrite Hq. simpl.
  split_and!; reflexivity.
Qed.

Lemma failed_Query_reads_as_empty_witness :
  snd (fst (Database_QueryContext Fixture.failing Sample.p0 Background
              "SELECT 1" [] []))
  = Some (DriverError "gone away")
  /\ hit (fst (fst (Database_QueryContext Fixture.failing Sample.p0 Background
                      "SELECT 1" [] [])))
     = UniqId (cf Sample.p0)
  /\ Result_Row (fst (fst (Database_QueryContext Fixture.failing Sample.p0
                             Background "SELECT 1" [] [])))
     = ((None, None),
        fst (fst (Database_QueryContext Fixture.failing Sample.p0 Background
                    "SELECT 1" [] [])))
  /\ Result_Rows (fst (fst (Database_QueryContext Fixture.failing Sample.p0
                              Background "SELECT 1" [] [])))
     = Some ((None, None),
             fst (fst (Database_QueryContext Fixture.failing Sample.p0
                         Background "SELECT 1" [] []))).
Proof.
  apply (failed_Query_reads_as_empty Fixture.failing Sample.p0 Background
           "SELECT 1" [] [] (DriverError "gone away")).
  reflexivity.
Defined.

(** Transactions and statements answer for the database that made
    them: every [Result] of a transaction begun, or of a statement
    prepared, on a database carries that database's identifier, and the
    call goes to the transaction or statement the library handed out. *)
Theorem results_carry_their_database (drv : Driver) (d : Database)
    (ctx ctx' : Ctx) (query query' : string) (args : list Value)
    (w w1 : World) :
  (forall t : Transaction,
     fst (Database_BeginTransactionContext drv d ctx w) = inl t ->
     on_BeginTx drv w (db d) ctx = inl (tx t)
     /\ hit (fst (fst (Transaction_QueryContext drv t ctx' query' args w1)))
        = UniqId (cf d)
     /\ hit (fst (fst (Transaction_ExecContext drv t ctx' query' args w1)))
        = UniqId (cf d)
     /\ snd (Transaction_QueryContext drv t ctx' query' args w1)
        = w1 ++ [TxQueryContext (tx t) ctx' query' args])
  /\
  (forall s : Statement,
     fst (Database_PrepareContext drv d ctx query w) = inl s ->
     on_Prepare drv w (db d) ctx query = inl (stmt s)
     /\ hit (fst (fst (Statement_QueryContext drv s ctx' args w1)))
        = UniqId (cf d)
     /\ hit (fst (fst (Statement_ExecContext drv s ctx' args w1)))
        = UniqId (cf d)
     /\ snd (Statement_QueryContext drv s ctx' args w1)
        = w1 ++ [StmtQueryContext (stmt s) ctx' args]).
Proof.
  unfold Database_BeginTransactionContext, Database_PrepareContext,
    Transaction_QueryContext, Transaction_ExecContext,
    Statement_QueryContext, Statement_ExecContext.
  split.
  - intros t. simpl. destruct (on_BeginTx _ _ _ _); [|discriminate].
    intros [= <-]. simpl.
    split_and!; try reflexivity; destruct (go_pair _); reflexivity.
  - intros s. simpl. destruct (on_Prepare _ _ _ _ _); [|discriminate].
    intros [= <-]. simpl.
    split_and!; try reflexivity; destruct (go_pair _); reflexivity.
Qed.

Lemma results_carry_their_database_witness :
  on_BeginTx Fixture.serving [] (db Sample.p0) Background = inl 9%nat
  /\ hit (fst (fst (Transaction_QueryContext Fixture.serving
                      (mkTransaction Sample.p0 9%nat) Background
                      "SELECT 1" [] [])))
     = UniqId (cf Sample.p0)
  /\ hit (fst (fst (Transaction_ExecContext Fixture.serving
                      (mkTransaction Sample.p0 9%nat) Background
                      "SELECT 1" [] [])))
     = UniqId (cf Sample.p0)
  /\ snd (Transaction_QueryContext Fixture.serving
            (mkTransaction Sample.p0 9%nat) Background "SELECT 1" [] [])
     = [TxQueryContext 9%nat Background "SELECT 1" []].
Proof.
  apply (proj1 (results_carry_their_database Fixture.serving Sample.p0
                  Background Background "x" "SELECT 1" [] [] [])
           (mkTransaction Sample.p0 9%nat)).
  reflexivity.
Defined.
